(** * warp-server: the query builder and the MySQL adapter

    A shallow embedding of [src/features/orm/query.ts] (the fluent query
    builder) and [src/adapters/database/mysql/index.ts] (the SQL compiler,
    the row mapper and the write statements), with the properties the
    specification states about them.

    JavaScript values are an inductive type; objects that the source
    mutates in place and shares (the query objects, the sorting arrays)
    live in a store and are named by references; exceptions are an error
    result that keeps the store as it stood when the error was raised. *)

From Stdlib Require Import ZArith String Ascii List Bool Lia.
From stdpp Require Import base option list strings pretty.
Import ListNotations.

Local Open Scope Z_scope.
Local Open Scope list_scope.

(** ** Strings *)

Module Str.

(** [Array.prototype.join]. *)
Definition join (sep : string) (l : list string) : string :=
  String.concat sep l.

(** [String.prototype.includes] with a one-character needle. *)
Fixpoint includes (c : ascii) (s : string) : bool :=
  match s with
  | EmptyString => false
  | String a s' => if Ascii.eqb a c then true else includes c s'
  end.

(** [String.prototype.split] with a one-character separator: the
    pieces between the separators, the text after the last one
    included. [cur] is the piece being read. *)
Fixpoint split_go (c : ascii) (cur : string) (s : string) : list string :=
  match s with
  | EmptyString => [cur]
  | String a s' =>
      if Ascii.eqb a c then cur :: split_go c EmptyString s'
      else split_go c (cur +:+ String a EmptyString) s'
  end.

Definition split (c : ascii) (s : string) : list string :=
  split_go c EmptyString s.

(** Number of positions of [hay] at which [needle] starts. *)
Fixpoint count (needle hay : string) : nat :=
  match hay with
  | EmptyString => if String.prefix needle hay then 1%nat else 0%nat
  | String _ rest =>
      ((if String.prefix needle hay then 1 else 0) + count needle rest)%nat
  end.

(** The line feed of a ['\n'] escape. *)
Definition newline : string := String (ascii_of_nat 10) EmptyString.

(** [s[0]]: the first character, or nothing for the empty string. *)
Definition first (s : string) : option string :=
  match s with
  | EmptyString => None
  | String a _ => Some (String a EmptyString)
  end.

(** [s.slice(1)]. *)
Definition slice1 (s : string) : string :=
  match s with
  | EmptyString => EmptyString
  | String _ rest => rest
  end.

(** The characters of a string, as one-character strings. *)
Fixpoint chars (s : string) : list string :=
  match s with
  | EmptyString => []
  | String a s' => String a EmptyString :: chars s'
  end.

End Str.

(** ** JavaScript values *)

(** The two wrapper classes of [features/orm/specials] that
    [regularEscape] recognises. *)
Inductive special := Increment | JsonAction.

(** A reference to a query object in the store. *)
Abbreviation qref := nat.

(** A reference to an array of strings in the store. *)
Abbreviation aref := nat.

(** The values that reach the builder and the adapter. Numbers are the
    integers; a [Date] is held by its ISO text, which also stands for
    the text a template literal gives it (that one depends on the time
    zone of the host); a query is held by reference, as in the source;
    a wrapper of [specials] carries its own data and whether the
    escaping functions have been set on it. *)
#[warnings="-register-all"]
Inductive value :=
| VUndefined
| VNull
| VBool (b : bool)
| VNum (n : Z)
| VStr (s : string)
| VDate (iso : string)
| VArr (items : list value)
| VObj (fields : list (string * value))
| VQuery (q : qref)
| VSpecial (kind : special) (data : string) (injected : bool).

(** JavaScript truthiness, as tested by [v ? a : b]. *)
Definition truthy (v : value) : bool :=
  match v with
  | VUndefined | VNull => false
  | VBool b => b
  | VNum n => negb (n =? 0)
  | VStr s => negb (String.eqb s EmptyString)
  | _ => true
  end.

(** The text a template literal substitutes for a value ([String(v)]).
    [fuel] bounds the nesting of arrays. *)
Fixpoint toStr_go (fuel : nat) (v : value) : string :=
  match v with
  | VUndefined => "undefined"
  | VNull => "null"
  | VBool true => "true"
  | VBool false => "false"
  | VNum n => pretty n
  | VStr s => s
  | VDate iso => iso
  | VArr items =>
      match fuel with
      | O => EmptyString
      | S fuel' =>
          Str.join ","
            (map (fun i => match i with
                           | VUndefined | VNull => EmptyString
                           | _ => toStr_go fuel' i
                           end) items)
      end
  | VObj _ | VQuery _ | VSpecial _ _ _ => "[object Object]"
  end.

Definition toStr (v : value) : string := toStr_go 64 v.

(** [obj[k] = v] on the ordered fields of an object: an existing
    property keeps its place. The order JavaScript gives to
    integer-like property names is not modelled. *)
Fixpoint setProperty (k : string) (v : value) (fields : list (string * value))
    : list (string * value) :=
  match fields with
  | [] => [(k, v)]
  | (k', v') :: rest =>
      if String.eqb k' k then (k', v) :: rest
      else (k', v') :: setProperty k v rest
  end.

Fixpoint getProperty (k : string) (fields : list (string * value))
    : option value :=
  match fields with
  | [] => None
  | (k', v') :: rest => if String.eqb k' k then Some v' else getProperty k rest
  end.

(** The own enumerable properties an object spread [{ ...v }] copies:
    those of an object, the indexed elements of an array or of a
    string, none for [undefined], [null], a number, a boolean or a
    date. A query or a wrapper does not come out of a result row and
    is given none. *)
Definition spread (v : option value) : list (string * value) :=
  match v with
  | Some (VObj fields) => fields
  | Some (VArr items) => imap (fun i x => (pretty i, x)) items
  | Some (VStr s) => imap (fun i c => (pretty i, VStr c)) (Str.chars s)
  | _ => []
  end.

(** ** Errors *)

(** The error codes of [utils/error] the two files raise, the
    [TypeError] of the language itself, and the failure of an
    [enforce] template. [StackOverflow] is the end of the recursion
    budget of the compiler. *)
Inductive error :=
| ForbiddenOperation
| InvalidObjectKey
| MissingConfiguration
| EnforceError
| TypeError
| StackOverflow.

Inductive result (A : Type) :=
| Ok (a : A)
| Err (e : error).
Arguments Ok {A} a.
Arguments Err {A} e.

Definition rbind {A B} (r : result A) (k : A -> result B) : result B :=
  match r with
  | Ok a => k a
  | Err e => Err e
  end.

(** [Array.prototype.map] with a callback that may throw: the first
    failure ends the loop. *)
Fixpoint rmap {A B} (f : A -> result B) (l : list A) : result (list B) :=
  match l with
  | [] => Ok []
  | a :: l' =>
      rbind (f a) (fun b => rbind (rmap f l') (fun bs => Ok (b :: bs)))
  end.

(** ** KeyMap *)

Module KeyMap.

(** Modelled from the spec: [utils/key-map] is not among the sources.
    A KeyMap is an ordered sequence of (key, value) pairs with unique
    keys; [set] inserts at the end or overwrites in place; [get],
    [remove], the list of keys, the list of values and the ordered
    pairs are the other operations. *)
Definition t := list (string * value).

Definition empty : t := [].

Fixpoint set (k : string) (v : value) (m : t) : t :=
  match m with
  | [] => [(k, v)]
  | (k', v') :: m' =>
      if String.eqb k' k then (k', v) :: m' else (k', v') :: set k v m'
  end.

Fixpoint get (k : string) (m : t) : option value :=
  match m with
  | [] => None
  | (k', v') :: m' => if String.eqb k' k then Some v' else get k m'
  end.

Fixpoint remove (k : string) (m : t) : t :=
  match m with
  | [] => []
  | (k', v') :: m' =>
      if String.eqb k' k then remove k m' else (k', v') :: remove k m'
  end.

Definition keys (m : t) : list string := map fst m.
Definition values (m : t) : list value := map snd m.
Definition toArray (m : t) : list (string * value) := m.

End KeyMap.

(** ** The modules the two files import *)

Module Constants.

(** The constants of [utils/constants] the two files read, and the
    version of [package.json]. The module is not among the sources, so
    their values are parameters. [Defaults_Query_Sort] is the array
    object the constant [Defaults.Query.Sort] names, created once when
    the module is loaded; [Defaults_Query_Sort_items] is what the
    array holds at that moment. *)
Class t := {
  InternalId : string;
  InternalKeys_Id : string;
  CreatedAt : string;
  UpdatedAt : string;
  DeletedAt : string;
  SortSymbol : string;
  Defaults_Query_Sort : aref;
  Defaults_Query_Sort_items : list string;
  Defaults_Query_Skip : Z;
  Defaults_Query_Limit : Z;
  version : string
}.

End Constants.

Module Format.

(** [toDatabaseDate] of [utils/format], from ISO text to the text the
    database stores. *)
Class t := { toDatabaseDate : string -> string }.

End Format.

Module Client.

(** The two escaping functions of the low-level client
    ([adapters/database/mysql/client]). [escapeKey] has an optional
    second argument; [None] is a call that leaves it out. *)
Class t := {
  escape : value -> string;
  escapeKey : string -> option bool -> string
}.

End Client.

Module CompoundKey.

(** [utils/compound-key]: whether a key names several columns, and
    which. *)
Class t := {
  isUsedBy : string -> bool;
  from : string -> list string
}.

End CompoundKey.

Module Relation.

(** What the adapter reads of a relation of [features/orm/relation]:
    [relation.class.source], [relation.parentClassKey()] and
    [relation.sourceClassKey(alias)]. *)
Record t := {
  class_source : string;
  parentClassKey : string;
  sourceClassKey : string -> string
}.

(** The static helpers [Relation.isUsedBy] and [Relation.parseKey];
    [parseKey] gives the two names the caller destructures. *)
Class ops := {
  isUsedBy : string -> bool;
  parseKey : string -> string * string
}.

End Relation.

(** The constraint kinds of [utils/constraint-map] that the builder
    names, and [Other] for a string that is none of them (the generic
    [where] takes the kind as a string). *)
Inductive Constraints :=
| EqualTo | NotEqualTo
| GreaterThan | GreaterThanOrEqualTo | LessThan | LessThanOrEqualTo
| Exists
| ContainedIn | NotContainedIn | ContainedInOrDoesNotExist
| StartsWith | EndsWith | Contains | ContainsEither | ContainsAll
| FoundIn | FoundInEither | FoundInAll
| NotFoundIn | NotFoundInEither | NotFoundInAll
| Other (name : string).

Record ConstraintObject := {
  co_key : string;
  co_constraint : Constraints;
  co_value : value
}.

Module ConstraintMap.

(** Modelled from the spec: [utils/constraint-map] is not among the
    sources. An ordered mapping from key to the ordered list of its
    constraint entries; [set] always appends, so a repeated
    (key, kind) pair is kept twice. [toArray] gives, per key, the
    entries as the adapter reads them ([key], [constraint],
    [value]). *)
Definition t := list (string * list (Constraints * value)).

Definition empty : t := [].

Fixpoint set (k : string) (c : Constraints) (v : value) (m : t) : t :=
  match m with
  | [] => [(k, [(c, v)])]
  | (k', cs) :: m' =>
      if String.eqb k' k then (k', cs ++ [(c, v)]) :: m'
      else (k', cs) :: set k c v m'
  end.

Definition toArray (m : t) : list (list ConstraintObject) :=
  map (fun kc : string * list (Constraints * value) =>
         map (fun cv : Constraints * value =>
                {| co_key := fst kc;
                   co_constraint := fst cv;
                   co_value := snd cv |})
             (snd kc))
      m.

End ConstraintMap.

(** What the builder reads of a class of [features/orm/class]: its
    name, its table, the key test [has] and its definition. *)
Record Class := {
  className : string;
  source : string;
  has : string -> bool;
  definition_keys : list string;
  definition_timestamps : list string;
  definition_relations : list (string * Relation.t)
}.

(** [QueryOptionsType] of [types/database]. *)
Record QueryOptions := {
  qo_source : string * string;
  qo_columns : list (string * string);
  qo_relations : list (string * Relation.t);
  qo_constraints : ConstraintMap.t;
  qo_sorting : list string;
  qo_skipped : Z;
  qo_limitation : Z
}.

Module QueryMapper.

(** The four functions of [features/orm/query-mapper], which are not
    among the sources; they are taken as functions of their
    arguments. *)
Class t := {
  getColumnsFrom :
    string -> list string -> list (string * Relation.t) ->
    list (string * string);
  getRelationsFrom :
    list string -> list (string * Relation.t) ->
    list (string * Relation.t);
  getConstraintsFrom : string -> ConstraintMap.t -> ConstraintMap.t;
  getSortingFrom : string -> list string -> list string
}.

End QueryMapper.

(** ** The store *)

(** The fields of a [Query] object. [selection], [included] and
    [constraints] are created by the field initialisers of each new
    object; [sorting] is initialised with the value of
    [Defaults.Query.Sort], an array object, so the field holds a
    reference to it. *)
Record QueryObject := {
  classType : Class;
  selection : list string;
  included : list string;
  constraints : ConstraintMap.t;
  sorting : aref;
  skipped : Z;
  limitation : Z
}.

(** The arrays of strings and the query objects of the program, by
    reference. *)
Record Heap := {
  arrays : list (list string);
  queries : list QueryObject
}.

(** A computation that reads and writes the store and may throw; the
    store it leaves is kept when it throws. *)
Definition M (A : Type) : Type := Heap -> result A * Heap.

Definition ret {A} (a : A) : M A := fun h => (Ok a, h).

Definition throw {A} (e : error) : M A := fun h => (Err e, h).

Definition bind {A B} (m : M A) (k : A -> M B) : M B :=
  fun h =>
    match m h with
    | (Ok a, h') => k a h'
    | (Err e, h') => (Err e, h')
    end.

Notation "'let*' x ':=' m 'in' k" := (bind m (fun x => k))
  (at level 10, x name, m at level 200, k at level 200).
Notation "m ';;' k" := (bind m (fun _ => k))
  (at level 100, k at level 200, right associativity).

(** A [for ... of] loop whose body may throw. *)
Fixpoint forEach {A} (l : list A) (body : A -> M unit) : M unit :=
  match l with
  | [] => ret tt
  | a :: l' => body a ;; forEach l' body
  end.

(** [Array.prototype.map] with a callback that works on the store. *)
Fixpoint mapM {A B} (f : A -> M B) (l : list A) : M (list B) :=
  match l with
  | [] => ret []
  | a :: l' => let* b := f a in let* bs := mapM f l' in ret (b :: bs)
  end.

Definition readQuery (this : qref) : M QueryObject :=
  fun h =>
    match queries h !! this with
    | Some q => (Ok q, h)
    | None => (Err TypeError, h)
    end.

Definition writeQuery (this : qref) (q : QueryObject) : M unit :=
  fun h => (Ok tt, {| arrays := arrays h; queries := <[this := q]> (queries h) |}).

Definition readArray (a : aref) : M (list string) :=
  fun h =>
    match arrays h !! a with
    | Some l => (Ok l, h)
    | None => (Err TypeError, h)
    end.

(** [array.push(x)]. *)
Definition pushArray (a : aref) (x : string) : M unit :=
  fun h =>
    match arrays h !! a with
    | Some l =>
        (Ok tt, {| arrays := <[a := l ++ [x]]> (arrays h); queries := queries h |})
    | None => (Err TypeError, h)
    end.

(** The array the [sorting] field of a query refers to, as the store
    has it. *)
Definition sortingOf (this : qref) (h : Heap) : option (list string) :=
  match queries h !! this with
  | Some q => arrays h !! sorting q
  | None => None
  end.

(** An argument of [select], [include], [sortBy], [sortByDescending]
    and of the [contains] family: one key, or an array of keys. *)
Inductive KeyArg :=
| One (key : string)
| Many (keys : list string).

(** ** The query builder ([features/orm/query.ts]) *)

(** What [getClassFromKeys] assigns to the instance it makes. *)
Record ClassInstance := {
  instance_class : Class;
  identifier : option value;
  instance_keys : KeyMap.t
}.

Module Query.
Section Builder.

Context {constants : Constants.t} {format : Format.t}.
Context {mapper : QueryMapper.t}.

(** [new Query(classType)]: the object is stored at a new reference. *)
Definition new (classType : Class) : M qref :=
  fun h =>
    (Ok (length (queries h)),
     {| arrays := arrays h;
        queries := queries h ++
          [ {| classType := classType;
               selection := [];
               included := [];
               constraints := ConstraintMap.empty;
               sorting := Constants.Defaults_Query_Sort;
               skipped := Constants.Defaults_Query_Skip;
               limitation := Constants.Defaults_Query_Limit |} ] |}).

(** The store when the modules have been loaded and no query has
    been made. *)
Definition loaded : Heap :=
  {| arrays :=
       replicate Constants.Defaults_Query_Sort [] ++
       [Constants.Defaults_Query_Sort_items];
     queries := [] |}.

Definition set (this : qref) (key : string) (constraint : Constraints)
    (val : value) : M qref :=
  let* q := readQuery this in
  if negb (has (classType q) key) then throw ForbiddenOperation
  else
    let value :=
      match val with
      | VDate iso => VStr (Format.toDatabaseDate iso)
      | _ => val
      end in
    writeQuery this
      {| classType := classType q;
         selection := selection q;
         included := included q;
         constraints := ConstraintMap.set key constraint value (constraints q);
         sorting := sorting q;
         skipped := skipped q;
         limitation := limitation q |} ;;
    ret this.

(** The query object as a successful [set] leaves it. *)
Definition withConstraint (q : QueryObject) (key : string)
    (constraint : Constraints) (val : value) : QueryObject :=
  {| classType := classType q;
     selection := selection q;
     included := included q;
     constraints :=
       ConstraintMap.set key constraint
         match val with
         | VDate iso => VStr (Format.toDatabaseDate iso)
         | _ => val
         end (constraints q);
     sorting := sorting q;
     skipped := skipped q;
     limitation := limitation q |}.

(** [typeof value === 'boolean'] turns the value into 1 or 0. *)
Definition booleanToNumber (val : value) : value :=
  match val with
  | VBool b => VNum (if b then 1 else 0)
  | _ => val
  end.

Definition equalTo (this : qref) (key : string) (val : value) : M qref :=
  set this key EqualTo (booleanToNumber val) ;; ret this.

Definition notEqualTo (this : qref) (key : string) (val : value) : M qref :=
  set this key NotEqualTo (booleanToNumber val) ;; ret this.

Definition greaterThan (this : qref) (key : string) (val : value) : M qref :=
  set this key GreaterThan val ;; ret this.

Definition greaterThanOrEqualTo (this : qref) (key : string) (val : value)
    : M qref :=
  set this key GreaterThanOrEqualTo val ;; ret this.

Definition lessThan (this : qref) (key : string) (val : value) : M qref :=
  set this key LessThan val ;; ret this.

Definition lessThanOrEqualTo (this : qref) (key : string) (val : value)
    : M qref :=
  set this key LessThanOrEqualTo val ;; ret this.

Definition exists_ (this : qref) (key : string) : M qref :=
  set this key Exists (VBool true) ;; ret this.

Definition doesNotExist (this : qref) (key : string) : M qref :=
  set this key Exists (VBool false) ;; ret this.

Definition containedIn (this : qref) (key : string) (value : list value)
    : M qref :=
  set this key ContainedIn (VArr value) ;; ret this.

Definition notContainedIn (this : qref) (key : string) (value : list value)
    : M qref :=
  set this key NotContainedIn (VArr value) ;; ret this.

Definition containedInOrDoesNotExist (this : qref) (key : string)
    (value : list value) : M qref :=
  set this key ContainedInOrDoesNotExist (VArr value) ;; ret this.

Definition startsWith (this : qref) (key : string) (value : string) : M qref :=
  set this key StartsWith (VStr value) ;; ret this.

Definition endsWith (this : qref) (key : string) (value : string) : M qref :=
  set this key EndsWith (VStr value) ;; ret this.

(** [if (key instanceof Array) key = key.join('|')]. *)
Definition joinKey (key : KeyArg) : string :=
  match key with
  | One k => k
  | Many ks => Str.join "|" ks
  end.

Definition contains (this : qref) (key : KeyArg) (value : string) : M qref :=
  set this (joinKey key) Contains (VStr value) ;; ret this.

Definition containsEither (this : qref) (key : KeyArg) (value : list string)
    : M qref :=
  set this (joinKey key) ContainsEither (VArr (map VStr value)) ;; ret this.

Definition containsAll (this : qref) (key : KeyArg) (value : list string)
    : M qref :=
  set this (joinKey key) ContainsAll (VArr (map VStr value)) ;; ret this.

(** The loop of [select]: every key is checked, then pushed; an
    element that is not a string fails the [enforce] template. *)
Definition selectKey (this : qref) (key : KeyArg) : M unit :=
  match key with
  | Many _ => throw EnforceError
  | One key =>
      let* q := readQuery this in
      if negb (has (classType q) key) then throw InvalidObjectKey
      else
        writeQuery this
          {| classType := classType q;
             selection := selection q ++ [key];
             included := included q;
             constraints := constraints q;
             sorting := sorting q;
             skipped := skipped q;
             limitation := limitation q |}
  end.

(** [keys[0] instanceof Array ? keys[0] : keys]. *)
Definition keyList (keys : list KeyArg) : list KeyArg :=
  match keys with
  | Many l :: _ => map One l
  | _ => keys
  end.

Definition select (this : qref) (keys : list KeyArg) : M qref :=
  if (length keys =? 0)%nat then throw MissingConfiguration
  else forEach (keyList keys) (selectKey this) ;; ret this.

Definition includeKey (this : qref) (key : KeyArg) : M unit :=
  match key with
  | Many _ => throw EnforceError
  | One key =>
      let* q := readQuery this in
      if negb (has (classType q) key) then throw InvalidObjectKey
      else
        writeQuery this
          {| classType := classType q;
             selection := selection q;
             included := included q ++ [key];
             constraints := constraints q;
             sorting := sorting q;
             skipped := skipped q;
             limitation := limitation q |}
  end.

(** The guard [if (!keys)] of [include] and of the two sort methods
    never fires: the rest parameter is an array. *)
Definition include (this : qref) (keys : list KeyArg) : M qref :=
  forEach (keyList keys) (includeKey this) ;; ret this.

(** [key[0] === '-' ? key.substr(1) : key]. *)
Definition rawKey (key : string) : string :=
  match key with
  | String "-" rest => rest
  | _ => key
  end.

Definition sortByKey (this : qref) (key : KeyArg) : M unit :=
  match key with
  | Many _ => throw EnforceError
  | One key =>
      let* q := readQuery this in
      if negb (has (classType q) (rawKey key)) then throw InvalidObjectKey
      else pushArray (sorting q) key
  end.

Definition sortBy (this : qref) (keys : list KeyArg) : M qref :=
  forEach (keyList keys) (sortByKey this) ;; ret this.

Definition sortByDescendingKey (this : qref) (key : KeyArg) : M unit :=
  match key with
  | Many _ => throw EnforceError
  | One key =>
      let* q := readQuery this in
      if negb (has (classType q) key) then throw InvalidObjectKey
      else pushArray (sorting q) ("-" +:+ key)
  end.

Definition sortByDescending (this : qref) (keys : list KeyArg) : M qref :=
  forEach (keyList keys) (sortByDescendingKey this) ;; ret this.

Definition toSubquery (this : qref) (select_ : string) : M qref :=
  let* q := readQuery this in
  writeQuery this
    {| classType := classType q;
       selection := [];
       included := included q;
       constraints := constraints q;
       sorting := sorting q;
       skipped := skipped q;
       limitation := limitation q |} ;;
  select this [One select_] ;;
  ret this.

(** [enforce] of a number greater than or equal to 0. *)
Definition skip (this : qref) (val : Z) : M qref :=
  if val <? 0 then throw EnforceError
  else
    let* q := readQuery this in
    writeQuery this
      {| classType := classType q;
         selection := selection q;
         included := included q;
         constraints := constraints q;
         sorting := sorting q;
         skipped := val;
         limitation := limitation q |} ;;
    ret this.

Definition limit (this : qref) (val : Z) : M qref :=
  if val <? 0 then throw EnforceError
  else
    let* q := readQuery this in
    writeQuery this
      {| classType := classType q;
         selection := selection q;
         included := included q;
         constraints := constraints q;
         sorting := sorting q;
         skipped := skipped q;
         limitation := val |} ;;
    ret this.

(** The query object as a successful [toSubquery] leaves it. *)
Definition narrowed (q : QueryObject) (select_ : string) : QueryObject :=
  {| classType := classType q;
     selection := [select_];
     included := included q;
     constraints := constraints q;
     sorting := sorting q;
     skipped := skipped q;
     limitation := limitation q |}.

(** The arguments of a call are evaluated first: [toSubquery] runs
    before [set] looks at the key. *)
Definition foundIn (this : qref) (key select_ : string) (value : qref)
    : M qref :=
  let* sub := toSubquery value select_ in
  set this key FoundIn (VQuery sub) ;; ret this.

Definition notFoundIn (this : qref) (key select_ : string) (value : qref)
    : M qref :=
  let* sub := toSubquery value select_ in
  set this key NotFoundIn (VQuery sub) ;; ret this.

(** The callback of the four [...Either]/[...All] methods: an item is
    an object whose first key is the column to select and whose value
    there is the query. An object with no key gives [undefined] for
    both, and the call of [toSubquery] on it is a [TypeError]. *)
Definition itemToSubquery (item : list (string * qref)) : M value :=
  match item with
  | [] => throw TypeError
  | (select_, query) :: _ =>
      let* sub := toSubquery query select_ in ret (VQuery sub)
  end.

Definition foundInEither (this : qref) (key : string)
    (value : list (list (string * qref))) : M qref :=
  let* subs := mapM itemToSubquery value in
  set this key FoundInEither (VArr subs) ;; ret this.

Definition foundInAll (this : qref) (key : string)
    (value : list (list (string * qref))) : M qref :=
  let* subs := mapM itemToSubquery value in
  set this key FoundInAll (VArr subs) ;; ret this.

Definition notFoundInEither (this : qref) (key : string)
    (value : list (list (string * qref))) : M qref :=
  let* subs := mapM itemToSubquery value in
  set this key NotFoundInEither (VArr subs) ;; ret this.

Definition notFoundInAll (this : qref) (key : string)
    (value : list (list (string * qref))) : M qref :=
  let* subs := mapM itemToSubquery value in
  set this key NotFoundInAll (VArr subs) ;; ret this.

(** The generic [where]: the entries of the outer object, and for
    each the entries of its kind-to-value object. *)
Definition where_ (this : qref)
    (constraints : list (string * list (Constraints * value))) : M unit :=
  forEach constraints (fun kc =>
    forEach (snd kc) (fun cv =>
      set this (fst kc) (fst cv) (snd cv) ;; ret tt)).

Definition getSelection (q : QueryObject) : list string :=
  let defaultSelect :=
    Constants.InternalKeys_Id ::
    definition_keys (classType q) ++ definition_timestamps (classType q) in
  let selected :=
    if (0 <? length (selection q))%nat then selection q else defaultSelect in
  selected ++ included q.

Definition toQueryOptions (this : qref) : M QueryOptions :=
  let* q := readQuery this in
  let className := className (classType q) in
  let relationsMap := definition_relations (classType q) in
  let selection := getSelection q in
  let columns := QueryMapper.getColumnsFrom className selection relationsMap in
  let relations := QueryMapper.getRelationsFrom selection relationsMap in
  let constraints := QueryMapper.getConstraintsFrom className (constraints q) in
  let* sorted := readArray (sorting q) in
  let sorting := QueryMapper.getSortingFrom className sorted in
  ret {| qo_source := (source (classType q), className);
         qo_columns := columns;
         qo_relations := relations;
         qo_constraints := constraints;
         qo_sorting := sorting;
         qo_skipped := skipped q;
         qo_limitation := limitation q |}.

(** [getClassFromKeys]: the KeyMap is changed in place and becomes
    the keys of the instance. *)
Definition getClassFromKeys (this : qref) (keys : KeyMap.t) : M ClassInstance :=
  let* q := readQuery this in
  let id := KeyMap.get Constants.InternalKeys_Id keys in
  let keys := KeyMap.remove Constants.InternalKeys_Id keys in
  ret {| instance_class := classType q;
         identifier := id;
         instance_keys := keys |}.

End Builder.
End Query.

(** ** The MySQL adapter ([adapters/database/mysql/index.ts]) *)

(** [FindClauseOptionsType] of [types/database]. *)
Record FindClauseOptions := {
  fc_source : string * string;
  fc_columns : list (string * string);
  fc_relations : list (string * Relation.t);
  fc_constraints : ConstraintMap.t
}.

(** [const { source, columns, relations, constraints } =
    query.toQueryOptions()]. *)
Definition findOptions (qo : QueryOptions) : FindClauseOptions :=
  {| fc_source := qo_source qo;
     fc_columns := qo_columns qo;
     fc_relations := qo_relations qo;
     fc_constraints := qo_constraints qo |}.

Module MySQLDatabaseAdapter.
Section Adapter.

Context {constants : Constants.t} {format : Format.t}.
Context {mapper : QueryMapper.t} {client : Client.t}.
Context {compound : CompoundKey.t} {relops : Relation.ops}.

(** An array in a template literal is joined with commas. *)
Definition escapeKey (key : string) (useRaw : bool) : string :=
  if CompoundKey.isUsedBy key then
    "CONCAT(" +:+
    Str.join "," (map (fun k => Client.escapeKey k None) (CompoundKey.from key))
    +:+ ")"
  else Client.escapeKey key (Some useRaw).

(** The escaping functions are set on a wrapper of [specials] just
    before it is escaped. *)
Definition regularEscape (val : value) : string :=
  Client.escape
    match val with
    | VSpecial kind data _ => VSpecial kind data true
    | _ => val
    end.

(** [value.map(f)] on a value of any kind: a [TypeError] unless it is
    an array. *)
Definition mapValue (val : value) (f : value -> result string)
    : result (list string) :=
  match val with
  | VArr items => rmap f items
  | _ => Err TypeError
  end.

Definition collectionEscape (val : value) : result string :=
  rbind (mapValue val (fun item => Ok (regularEscape item)))
        (fun l => Ok (Str.join ", " l)).

(** The table of fragment generators. The sub-query generators call
    [subqueryEscape], which compiles a query and is given here as an
    argument. *)
Definition constraints (subqueryEscape : value -> result string)
    (constraint : Constraints) : option (string -> value -> result string) :=
  match constraint with
  | EqualTo => Some (fun k v => Ok (k +:+ " = " +:+ regularEscape v))
  | NotEqualTo => Some (fun k v => Ok (k +:+ " <> " +:+ regularEscape v))
  | GreaterThan => Some (fun k v => Ok (k +:+ " > " +:+ regularEscape v))
  | GreaterThanOrEqualTo =>
      Some (fun k v => Ok (k +:+ " >= " +:+ regularEscape v))
  | LessThan => Some (fun k v => Ok (k +:+ " < " +:+ regularEscape v))
  | LessThanOrEqualTo =>
      Some (fun k v => Ok (k +:+ " <= " +:+ regularEscape v))
  | Exists =>
      Some (fun k v =>
        Ok (k +:+ " " +:+ (if truthy v then "IS NOT NULL" else "IS NULL")))
  | ContainedIn =>
      Some (fun k v =>
        rbind (collectionEscape v) (fun c => Ok (k +:+ " IN (" +:+ c +:+ ")")))
  | NotContainedIn =>
      Some (fun k v =>
        rbind (collectionEscape v)
              (fun c => Ok (k +:+ " NOT IN (" +:+ c +:+ ")")))
  | ContainedInOrDoesNotExist =>
      Some (fun k v =>
        rbind (collectionEscape v) (fun c =>
          Ok ("(" +:+ k +:+ " IS NULL OR " +:+ k +:+ " IN (" +:+ c +:+ "))")))
  | StartsWith =>
      Some (fun k v =>
        Ok (k +:+ " LIKE " +:+ regularEscape (VStr (toStr v +:+ "%"))))
  | EndsWith =>
      Some (fun k v =>
        Ok (k +:+ " LIKE " +:+ regularEscape (VStr ("%" +:+ toStr v))))
  | Contains =>
      Some (fun k v =>
        Ok (k +:+ " LIKE " +:+ regularEscape (VStr ("%" +:+ toStr v +:+ "%"))))
  | ContainsEither =>
      Some (fun k v =>
        rbind (mapValue v (fun i =>
                 Ok (k +:+ " LIKE " +:+
                     regularEscape (VStr ("%" +:+ toStr i +:+ "%")))))
              (fun l => Ok ("(" +:+ Str.join " OR " l +:+ ")")))
  | ContainsAll =>
      Some (fun k v =>
        rbind (mapValue v (fun i =>
                 Ok (k +:+ " LIKE " +:+
                     regularEscape (VStr ("%" +:+ toStr i +:+ "%")))))
              (fun l => Ok ("(" +:+ Str.join " AND " l +:+ ")")))
  | FoundIn =>
      Some (fun k v =>
        rbind (subqueryEscape v) (fun q => Ok (k +:+ " IN (" +:+ q +:+ ")")))
  | FoundInEither =>
      Some (fun k v =>
        rbind (mapValue v (fun i =>
                 rbind (subqueryEscape i)
                       (fun q => Ok (k +:+ " IN (" +:+ q +:+ ")"))))
              (fun l => Ok ("(" +:+ Str.join " OR " l +:+ ")")))
  | FoundInAll =>
      Some (fun k v =>
        rbind (mapValue v (fun i =>
                 rbind (subqueryEscape i)
                       (fun q => Ok (k +:+ " IN (" +:+ q +:+ ")"))))
              (fun l => Ok ("(" +:+ Str.join " AND " l +:+ ")")))
  | NotFoundIn =>
      Some (fun k v =>
        rbind (subqueryEscape v)
              (fun q => Ok (k +:+ " NOT IN (" +:+ q +:+ ")")))
  | NotFoundInEither =>
      Some (fun k v =>
        rbind (mapValue v (fun i =>
                 rbind (subqueryEscape i)
                       (fun q => Ok (k +:+ " NOT IN (" +:+ q +:+ ")"))))
              (fun l => Ok ("(" +:+ Str.join " AND " l +:+ ")")))
  | NotFoundInAll => None
  | Other _ => None
  end.

Definition parseConstraint (subqueryEscape : value -> result string)
    (key : string) (constraint : Constraints) (val : value) : result string :=
  let escapedKey := escapeKey key false in
  match constraints subqueryEscape constraint with
  | Some generator => generator escapedKey val
  | None => Err ForbiddenOperation
  end.

(** The statement of [getFindClause], given the compiler of
    sub-queries. *)
Definition findClause (subqueryEscape : value -> result string)
    (o : FindClauseOptions) : result string :=
  let select :=
    map (fun ka : string * string =>
           escapeKey (fst ka) false +:+ " AS " +:+ escapeKey (snd ka) true)
        (fc_columns o) in
  let from :=
    escapeKey (fst (fc_source o)) false +:+ " AS " +:+
    escapeKey (snd (fc_source o)) false in
  let joins :=
    map (fun ar : string * Relation.t =>
           "LEFT OUTER JOIN " +:+
           escapeKey (Relation.class_source (snd ar)) false +:+ " AS " +:+
           escapeKey (fst ar) true +:+ " ON " +:+
           escapeKey (Relation.parentClassKey (snd ar)) false +:+ " = " +:+
           escapeKey (Relation.sourceClassKey (snd ar) (snd (fc_source o)))
                     false)
        (fc_relations o) in
  rbind
    (rmap (fun c : ConstraintObject =>
             parseConstraint subqueryEscape
               (co_key c) (co_constraint c) (co_value c))
          (concat (ConstraintMap.toArray (fc_constraints o))))
    (fun where_ =>
       Ok ("SELECT " +:+ Str.join ", " select +:+ " FROM " +:+ from +:+ " " +:+
           Str.join Str.newline joins +:+ " WHERE " +:+
           Str.join " AND " where_)).

(** [getFindClause] and [subqueryEscape] call each other through the
    table of generators; [fuel] is the depth of sub-queries the call
    stack can take. The store is only read. *)
Fixpoint getFindClause (fuel : nat) (h : Heap) (o : FindClauseOptions)
    : result string :=
  match fuel with
  | O => Err StackOverflow
  | S fuel' =>
      findClause
        (fun query =>
           match query with
           | VQuery q =>
               match Query.toQueryOptions q h with
               | (Ok qo, _) => getFindClause fuel' h (findOptions qo)
               | (Err e, _) => Err e
               end
           | _ => Err TypeError
           end)
        o
  end.

Definition subqueryEscape (fuel : nat) (h : Heap) (query : value)
    : result string :=
  match query with
  | VQuery q =>
      match Query.toQueryOptions q h with
      | (Ok qo, _) => getFindClause fuel h (findOptions qo)
      | (Err e, _) => Err e
      end
  | _ => Err TypeError
  end.

Definition getSortClause (className : string) (sort : list string) : string :=
  Str.join ", "
    (map (fun keySort =>
            if decide (Str.first keySort = Some Constants.SortSymbol)
            then escapeKey (Str.slice1 keySort) false +:+ " DESC"
            else escapeKey keySort false +:+ " ASC")
         sort).

(** The body of the loop of [mapRows], on one entry of the row. *)
Definition mapRow (keys : KeyMap.t) (kv : string * value) : KeyMap.t :=
  if Relation.isUsedBy (fst kv) then
    let relationName := fst (Relation.parseKey (fst kv)) in
    let relationKey := snd (Relation.parseKey (fst kv)) in
    let relation :=
      VObj (setProperty relationKey (snd kv)
              (spread (KeyMap.get relationName keys))) in
    KeyMap.set relationName relation keys
  else KeyMap.set (fst kv) (snd kv) keys.

(** [row] is the list [Object.entries(row)] gives. *)
Definition mapRows (row : list (string * value)) : KeyMap.t :=
  fold_left mapRow row KeyMap.empty.

(** The script [find] sends to the client. *)
Definition find_script (fuel : nat) (h : Heap) (source : string * string)
    (columns : list (string * string))
    (relations : list (string * Relation.t))
    (constraints : ConstraintMap.t) (sorting : list string)
    (skipped limitation : Z) : result string :=
  rbind
    (getFindClause fuel h
       {| fc_source := source; fc_columns := columns;
          fc_relations := relations; fc_constraints := constraints |})
    (fun findClause =>
       let sortingClause := getSortClause (snd source) sorting in
       Ok (findClause +:+ " ORDER BY " +:+ sortingClause +:+
           " LIMIT " +:+ pretty skipped +:+ ", " +:+ pretty limitation +:+
           "; -- Warp Server " +:+ Constants.version)).

(** The rows [find] returns, from the rows of the client. *)
Definition find_rows (rows : list (list (string * value))) : list KeyMap.t :=
  map mapRows rows.

(** [currentTimestamp], from the ISO text of the clock. *)
Definition currentTimestamp (iso : string) : string :=
  Format.toDatabaseDate iso.

(** [create], [update] and [destroy] change the KeyMap they are given
    and send a script to the client: the result is the script and
    the KeyMap as the call leaves it. [iso] is the reading of the
    clock. *)
Definition create (iso : string) (source : string) (keys : KeyMap.t)
    : string * KeyMap.t :=
  let now := currentTimestamp iso in
  let keys := KeyMap.set Constants.CreatedAt (VStr now) keys in
  let keys := KeyMap.set Constants.UpdatedAt (VStr now) keys in
  let sqlInputKeys :=
    map (fun key => Client.escapeKey key None) (KeyMap.keys keys) in
  let sqlInputValues :=
    map (fun val => Client.escape val) (KeyMap.values keys) in
  ("INSERT INTO " +:+ Client.escapeKey source None +:+
   " (" +:+ Str.join ", " sqlInputKeys +:+ ") " +:+
   "VALUES (" +:+ Str.join ", " sqlInputValues +:+
   "); -- Warp Server " +:+ Constants.version,
   keys).

Definition update (iso : string) (source : string) (keys : KeyMap.t)
    (id : value) : string * KeyMap.t :=
  let idKey := Client.escapeKey Constants.InternalId None in
  let now := currentTimestamp iso in
  let keys := KeyMap.set Constants.UpdatedAt (VStr now) keys in
  let sqlInput :=
    fold_left
      (fun input (kv : string * value) =>
         input ++
         [Client.escapeKey (fst kv) None +:+ " = " +:+ Client.escape (snd kv)])
      (KeyMap.toArray keys) [] in
  ("UPDATE " +:+ Client.escapeKey source None +:+
   " SET " +:+ Str.join ", " sqlInput +:+
   " WHERE " +:+ idKey +:+ " = " +:+ toStr id +:+
   "; -- Warp Server " +:+ Constants.version,
   keys).

Definition destroy (iso : string) (source : string) (keys : KeyMap.t)
    (id : value) : string * KeyMap.t :=
  let idKey := Client.escapeKey Constants.InternalId None in
  let now := currentTimestamp iso in
  let keys := KeyMap.set Constants.UpdatedAt (VStr now) keys in
  let keys := KeyMap.set Constants.DeletedAt (VStr now) keys in
  let sqlInput :=
    fold_left
      (fun input (kv : string * value) =>
         input ++
         [Client.escapeKey (fst kv) None +:+ " = " +:+ Client.escape (snd kv)])
      (KeyMap.toArray keys) [] in
  ("UPDATE " +:+ Client.escapeKey source None +:+
   " SET " +:+ Str.join ", " sqlInput +:+
   " WHERE " +:+ idKey +:+ " = " +:+ toStr id +:+
   "; -- Warp Server " +:+ Constants.version,
   keys).

End Adapter.
End MySQLDatabaseAdapter.

(** [g] gives every result [f] gives. *)
Definition extends (f g : value -> result string) : Prop :=
  forall v s, f v = Ok s -> g v = Ok s.

(** A constraint that compiles without a sub-query: a kind of the table
    that is no sub-query kind, with an array where the kind maps over
    its value. *)
Definition compilesAlone (c : ConstraintObject) : bool :=
  match co_constraint c with
  | EqualTo | NotEqualTo | GreaterThan | GreaterThanOrEqualTo
  | LessThan | LessThanOrEqualTo | Exists
  | StartsWith | EndsWith | Contains => true
  | ContainedIn | NotContainedIn | ContainedInOrDoesNotExist
  | ContainsEither | ContainsAll =>
      match co_value c with VArr _ => true | _ => false end
  | _ => false
  end.

(** The kinds the methods of the builder pass to [set], in the order
    of the methods. *)
Definition builderKinds : list Constraints :=
  [EqualTo; NotEqualTo; GreaterThan; GreaterThanOrEqualTo; LessThan;
   LessThanOrEqualTo; Exists; ContainedIn; NotContainedIn;
   ContainedInOrDoesNotExist; StartsWith; EndsWith; Contains;
   ContainsEither; ContainsAll; FoundIn; FoundInEither; FoundInAll;
   NotFoundIn; NotFoundInEither; NotFoundInAll].

(** ** The reading of the specification *)

Module Claimed.

(** The specification's words for a [contains] over several keys:
    an OR-group over the individual keys, one LIKE fragment per
    listed key. *)
Definition orGroupOverKeys {client : Client.t} (keys : list string)
    (term : string) : string :=
  "(" +:+
  Str.join " OR "
    (map (fun k => Client.escapeKey k (Some false) +:+ " LIKE " +:+
                   Client.escape (VStr ("%" +:+ term +:+ "%")))
         keys) +:+
  ")".

End Claimed.

(** ** Fragments as filled templates *)

(** To count how often a fragment holds the escaped key and the
    escaped values, a fragment is read as a template: literal text,
    holes for the escaped key, holes for a value that goes through
    [regularEscape], holes for a query that goes through
    [subqueryEscape]. *)
Module Template.

Inductive piece :=
| Text (s : string)
| KeyHole
| ValueHole (v : value)
| SubqueryHole (v : value).

(** The groups of pieces one after the other, with [sep] between two
    of them, as [join] puts it. *)
Fixpoint separated (sep : string) (groups : list (list piece)) : list piece :=
  match groups with
  | [] => []
  | [g] => g
  | g :: rest => g ++ Text sep :: separated sep rest
  end.

(** The items of the value of a list-valued kind. *)
Definition items (v : value) : result (list value) :=
  match v with
  | VArr l => Ok l
  | _ => Err TypeError
  end.

Definition like (pattern : value) : list piece :=
  [KeyHole; Text " LIKE "; ValueHole pattern].

Definition inSubquery (op : string) (query : value) : list piece :=
  [KeyHole; Text op; SubqueryHole query; Text ")"].

(** The template of each generator of the table, line by line. *)
Definition template (constraint : Constraints) (v : value)
    : option (result (list piece)) :=
  match constraint with
  | EqualTo => Some (Ok [KeyHole; Text " = "; ValueHole v])
  | NotEqualTo => Some (Ok [KeyHole; Text " <> "; ValueHole v])
  | GreaterThan => Some (Ok [KeyHole; Text " > "; ValueHole v])
  | GreaterThanOrEqualTo => Some (Ok [KeyHole; Text " >= "; ValueHole v])
  | LessThan => Some (Ok [KeyHole; Text " < "; ValueHole v])
  | LessThanOrEqualTo => Some (Ok [KeyHole; Text " <= "; ValueHole v])
  | Exists =>
      Some (Ok [KeyHole; Text " ";
                Text (if truthy v then "IS NOT NULL" else "IS NULL")])
  | ContainedIn =>
      Some (rbind (items v) (fun l =>
        Ok ([KeyHole; Text " IN ("] ++
            separated ", " (map (fun i => [ValueHole i]) l) ++ [Text ")"])))
  | NotContainedIn =>
      Some (rbind (items v) (fun l =>
        Ok ([KeyHole; Text " NOT IN ("] ++
            separated ", " (map (fun i => [ValueHole i]) l) ++ [Text ")"])))
  | ContainedInOrDoesNotExist =>
      Some (rbind (items v) (fun l =>
        Ok ([Text "("; KeyHole; Text " IS NULL OR "; KeyHole; Text " IN ("] ++
            separated ", " (map (fun i => [ValueHole i]) l) ++ [Text "))"])))
  | StartsWith => Some (Ok (like (VStr (toStr v +:+ "%"))))
  | EndsWith => Some (Ok (like (VStr ("%" +:+ toStr v))))
  | Contains => Some (Ok (like (VStr ("%" +:+ toStr v +:+ "%"))))
  | ContainsEither =>
      Some (rbind (items v) (fun l =>
        Ok (Text "(" ::
            separated " OR "
              (map (fun i => like (VStr ("%" +:+ toStr i +:+ "%"))) l) ++
            [Text ")"])))
  | ContainsAll =>
      Some (rbind (items v) (fun l =>
        Ok (Text "(" ::
            separated " AND "
              (map (fun i => like (VStr ("%" +:+ toStr i +:+ "%"))) l) ++
            [Text ")"])))
  | FoundIn => Some (Ok (inSubquery " IN (" v))
  | FoundInEither =>
      Some (rbind (items v) (fun l =>
        Ok (Text "(" :: separated " OR " (map (inSubquery " IN (") l) ++
            [Text ")"])))
  | FoundInAll =>
      Some (rbind (items v) (fun l =>
        Ok (Text "(" :: separated " AND " (map (inSubquery " IN (") l) ++
            [Text ")"])))
  | NotFoundIn => Some (Ok (inSubquery " NOT IN (" v))
  | NotFoundInEither =>
      Some (rbind (items v) (fun l =>
        Ok (Text "(" :: separated " AND " (map (inSubquery " NOT IN (") l) ++
            [Text ")"])))
  | NotFoundInAll => None
  | Other _ => None
  end.

(** Filling a template: the holes from left to right, the first
    failing sub-query ending it. *)
Fixpoint render (regularEscape : value -> string)
    (subqueryEscape : value -> result string) (k : string)
    (tpl : list piece) : result string :=
  match tpl with
  | [] => Ok EmptyString
  | p :: rest =>
      rbind
        match p with
        | Text s => Ok s
        | KeyHole => Ok k
        | ValueHole v => Ok (regularEscape v)
        | SubqueryHole v => subqueryEscape v
        end
        (fun s =>
           rbind (render regularEscape subqueryEscape k rest)
                 (fun r => Ok (s +:+ r)))
  end.

Fixpoint keyHoles (tpl : list piece) : nat :=
  match tpl with
  | [] => 0%nat
  | KeyHole :: rest => S (keyHoles rest)
  | _ :: rest => keyHoles rest
  end.

Fixpoint valueHoles (tpl : list piece) : list value :=
  match tpl with
  | [] => []
  | ValueHole v :: rest => v :: valueHoles rest
  | _ :: rest => valueHoles rest
  end.

Fixpoint subqueryHoles (tpl : list piece) : list value :=
  match tpl with
  | [] => []
  | SubqueryHole v :: rest => v :: subqueryHoles rest
  | _ :: rest => subqueryHoles rest
  end.

(** How often each kind holds the key: twice for
    [containedInOrDoesNotExist], once per listed item for the groups,
    once for the rest. *)
Definition keyOccurrences (constraint : Constraints) (l : list value) : nat :=
  match constraint with
  | ContainedInOrDoesNotExist => 2%nat
  | ContainsEither | ContainsAll
  | FoundInEither | FoundInAll | NotFoundInEither => length l
  | _ => 1%nat
  end.

(** The values each kind escapes, in order: none for [exists], the
    value for the comparisons, the listed items for the membership
    kinds, the value or the items with the wildcards put around them
    for the pattern kinds, none for the sub-query kinds. *)
Definition escapedValues (constraint : Constraints) (v : value)
    (l : list value) : list value :=
  match constraint with
  | EqualTo | NotEqualTo | GreaterThan | GreaterThanOrEqualTo
  | LessThan | LessThanOrEqualTo => [v]
  | ContainedIn | NotContainedIn | ContainedInOrDoesNotExist => l
  | StartsWith => [VStr (toStr v +:+ "%")]
  | EndsWith => [VStr ("%" +:+ toStr v)]
  | Contains => [VStr ("%" +:+ toStr v +:+ "%")]
  | ContainsEither | ContainsAll =>
      map (fun i => VStr ("%" +:+ toStr i +:+ "%")) l
  | _ => []
  end.

(** The queries each kind compiles, in order. *)
Definition compiledQueries (constraint : Constraints) (v : value)
    (l : list value) : list value :=
  match constraint with
  | FoundIn | NotFoundIn => [v]
  | FoundInEither | FoundInAll | NotFoundInEither => l
  | _ => []
  end.

(** The items of a value, none when it is not an array. *)
Definition listed (v : value) : list value :=
  match v with
  | VArr l => l
  | _ => []
  end.

End Template.

(** ** Where a column of a row goes *)

Module Rows.
Section Places.

Context {relops : Relation.ops}.

(** Where the mapper puts a column: the top-level key, and for a
    column with a relation prefix the property of the nested object. *)
Definition place (k : string) : string * option string :=
  if Relation.isUsedBy k
  then (fst (Relation.parseKey k), Some (snd (Relation.parseKey k)))
  else (k, None).

(** Two columns clash when they go to the same top-level key and one
    of them is not nested, or both go to the same property of it. *)
Definition clash (p q : string * option string) : bool :=
  String.eqb (fst p) (fst q) &&
  match snd p, snd q with
  | Some c, Some c' => String.eqb c c'
  | _, _ => true
  end.

(** No two columns of the row clash. *)
Fixpoint clashFree (keys : list string) : bool :=
  match keys with
  | [] => true
  | k :: rest =>
      forallb (fun k' => negb (clash (place k) (place k'))) rest &&
      clashFree rest
  end.

(** The value of a column is where the mapper puts it. *)
Definition placed (k : string) (v : value) (m : KeyMap.t) : Prop :=
  match place k with
  | (a, Some c) =>
      exists nested, KeyMap.get a m = Some (VObj nested) /\
                     getProperty c nested = Some v
  | (a, None) => KeyMap.get a m = Some v
  end.

End Places.
End Rows.

(** ** The state a builder call leaves *)

(** The query object with another selection. *)
Definition withSelection (q : QueryObject) (sel : list string) : QueryObject :=
  {| classType := classType q;
     selection := sel;
     included := included q;
     constraints := constraints q;
     sorting := sorting q;
     skipped := skipped q;
     limitation := limitation q |}.

(** The store with another object for the query [this]. *)
Definition withQuery (h : Heap) (this : qref) (q : QueryObject) : Heap :=
  {| arrays := arrays h; queries := <[this := q]> (queries h) |}.

(** The query object with another paging. *)
Definition withPaging (q : QueryObject) (skip limit : Z) : QueryObject :=
  {| classType := classType q;
     selection := selection q;
     included := included q;
     constraints := constraints q;
     sorting := sorting q;
     skipped := skip;
     limitation := limit |}.

(** No key of the list occurs twice. *)
Fixpoint distinct (keys : list string) : bool :=
  match keys with
  | [] => true
  | k :: rest => negb (existsb (String.eqb k) rest) && distinct rest
  end.

(** ** The head of a find clause *)

(** The part of the find clause before its predicates. *)
Definition selectFrom {client : Client.t} {compound : CompoundKey.t}
    (o : FindClauseOptions) : string :=
  "SELECT " +:+
  Str.join ", "
    (map (fun ka : string * string =>
            MySQLDatabaseAdapter.escapeKey (fst ka) false +:+ " AS " +:+
            MySQLDatabaseAdapter.escapeKey (snd ka) true)
         (fc_columns o)) +:+
  " FROM " +:+
  (MySQLDatabaseAdapter.escapeKey (fst (fc_source o)) false +:+ " AS " +:+
   MySQLDatabaseAdapter.escapeKey (snd (fc_source o)) false) +:+
  " " +:+
  Str.join Str.newline
    (map (fun ar : string * Relation.t =>
            "LEFT OUTER JOIN " +:+
            MySQLDatabaseAdapter.escapeKey (Relation.class_source (snd ar)) false
            +:+ " AS " +:+
            MySQLDatabaseAdapter.escapeKey (fst ar) true +:+ " ON " +:+
            MySQLDatabaseAdapter.escapeKey
              (Relation.parentClassKey (snd ar)) false +:+ " = " +:+
            MySQLDatabaseAdapter.escapeKey
              (Relation.sourceClassKey (snd ar) (snd (fc_source o))) false)
         (fc_relations o)).

(** The kinds whose generator compiles a query. *)
Definition subqueryKind (c : Constraints) : bool :=
  match c with
  | FoundIn | NotFoundIn => true
  | _ => false
  end.

(** ** The modifier [min] ([features/orm/keys/modifiers/min.ts]) *)

Module MinModifier.

(** The accessors of the property the modifier finds on the class
    instance, if any: each reads or writes the object they are applied
    to, here a state of type [S]. *)
Record Descriptor (S : Type) := {
  descriptor_get : option (S -> value);
  descriptor_set : option (value -> S -> S)
}.
Arguments descriptor_get {S} d.
Arguments descriptor_set {S} d.

(** The setter the modifier defines: a number under the limit is
    refused with an [Error]; any other value goes to the setter found
    before, when there is one. [None] is the throw. *)
Definition set {S : Type} (limit : Z) (descriptor : option (Descriptor S))
    (val : value) (this : S) : option S :=
  if match val with
     | VNum n => n <? limit
     | _ => false
     end
  then None
  else
    Some match descriptor with
         | Some d =>
             match descriptor_set d with
             | Some setter => setter val this
             | None => this
             end
         | None => this
         end.

(** The getter the modifier defines:
    [descriptor && descriptor.get && descriptor.get.apply(this) || undefined]. *)
Definition get {S : Type} (descriptor : option (Descriptor S)) (this : S)
    : value :=
  let val :=
    match descriptor with
    | Some d =>
        match descriptor_get d with
        | Some getter => getter this
        | None => VUndefined
        end
    | None => VUndefined
    end in
  if truthy val then val else VUndefined.

End MinModifier.

(** ** The required configuration of the server ([unnamed/part_000]) *)

Module WarpServer.

(** What the checks at the head of the constructor throw: the
    [WarpError] of code [MissingConfiguration] with its message, or the
    [TypeError] of reading a property of [undefined] or [null]. *)
Inductive thrown :=
| Missing (message : string)
| NotAnObject.

(** [v.name]: a [TypeError] on [undefined] and [null], the property of
    an object, and [undefined] on any other value (the names read
    here are no property of a number, a string, a boolean, an array
    or a date). *)
Definition property (name : string) (v : value) : thrown + value :=
  match v with
  | VUndefined | VNull => inl NotAnObject
  | VObj fields => inr (default VUndefined (getProperty name fields))
  | _ => inr VUndefined
  end.

Definition _requiredConfig (config : value) (name : string) : option thrown :=
  if negb (truthy config) then Some (Missing (name +:+ " must be set"))
  else None.

Definition andThen (check : option thrown) (next : option thrown)
    : option thrown :=
  match check with
  | Some t => Some t
  | None => next
  end.

Definition required (object : thrown + value) (prop name : string)
    : option thrown :=
  match object with
  | inl t => Some t
  | inr o =>
      match property prop o with
      | inl t => Some t
      | inr v => _requiredConfig v name
      end
  end.

(** The seven statements the constructor starts with; [None] when
    none of them throws. *)
Definition requiredConfiguration (config : value) : option thrown :=
  andThen (required (inr config) "database" "DB configuration")
  (andThen (required (property "database" config) "host" "DB Host")
  (andThen (required (property "database" config) "user" "DB User")
  (andThen (required (property "database" config) "password" "DB Password")
  (andThen (required (inr config) "security" "Security keys")
  (andThen (required (property "security" config) "apiKey" "API Key")
           (required (property "security" config) "masterKey" "Master Key")))))).

(** The value of a property, [undefined] where there is none to
    read. *)
Definition read (name : string) (v : value) : value :=
  match property name v with
  | inr x => x
  | inl _ => VUndefined
  end.

(** The settings the constructor requires, with the name each has in
    its message, in the order of the checks. *)
Definition settings (config : value) : list (string * value) :=
  [("DB configuration", read "database" config);
   ("DB Host", read "host" (read "database" config));
   ("DB User", read "user" (read "database" config));
   ("DB Password", read "password" (read "database" config));
   ("Security keys", read "security" config);
   ("API Key", read "apiKey" (read "security" config));
   ("Master Key", read "masterKey" (read "security" config))].

End WarpServer.

(** The store with another content for the array [a]. *)
Definition withArray (h : Heap) (a : aref) (items : list string) : Heap :=
  {| arrays := <[a := items]> (arrays h); queries := queries h |}.

(** ** The constraint kinds a store holds *)

(** The kinds of the entries of a ConstraintMap, key by key. *)
Definition kindsOf (m : ConstraintMap.t) : list Constraints :=
  concat (map (fun kc : string * list (Constraints * value) =>
                 map fst (snd kc)) m).

(** The kinds the query [this] holds; none when there is no such
    query. *)
Definition kindsIn (h : Heap) (this : qref) : list Constraints :=
  match queries h !! this with
  | Some q => kindsOf (constraints q)
  | None => []
  end.

(** The kinds of the enumeration [Constraints]: any other name a
    caller gives to [where] or to [find] is not one of them. *)
Definition enumerated (c : Constraints) : bool :=
  match c with
  | Other _ => false
  | _ => true
  end.

Section Compilable.
Context {client : Client.t} {compound : CompoundKey.t}.

(** The kind has a generator in the table of the adapter. *)
Definition generated (subq : value -> result string) (c : Constraints)
    : bool :=
  match MySQLDatabaseAdapter.constraints subq c with
  | Some _ => true
  | None => false
  end.

(** Every kind a query of the store holds has a generator. *)
Definition compilable (subq : value -> result string) (h : Heap) : bool :=
  forallb (fun m => forallb (generated subq) (kindsOf m))
          (map constraints (queries h)).

(** What a call leaves: every kind of the store has a generator,
    and when the call returns, it returns the query, which holds one
    kind more. *)
Definition storesOneCompilableKind (subq : value -> result string)
    (h : Heap) (this : qref) (call : M qref) : Prop :=
  compilable subq (snd (call h)) = true /\
  forall (r : qref) (h' : Heap),
    call h = (Ok r, h') ->
    r = this /\ length (kindsIn h' this) = S (length (kindsIn h this)).

End Compilable.

(** ** Instances to run the embedding on concrete inputs *)

Module Example.

(** Modelled from the spec: the low-level client is not among the
    sources. Identifiers are quoted with backticks, a backtick inside
    doubled, and a qualified name quoted part by part unless the
    second argument forbids it; literals are quoted with the quote,
    the backslash and the control characters neutralised, numbers
    are written in decimal, [null] and [undefined] are [NULL]. *)
Fixpoint escapeIdBody (qualified : bool) (s : string) : string :=
  match s with
  | EmptyString => EmptyString
  | String "`" rest => "``" +:+ escapeIdBody qualified rest
  | String "." rest =>
      (if qualified then "`.`" else ".") +:+ escapeIdBody qualified rest
  | String a rest => String a (escapeIdBody qualified rest)
  end.

Definition escapeId (key : string) (forbidQualified : option bool) : string :=
  "`" +:+ escapeIdBody (negb (default false forbidQualified)) key +:+ "`".

Fixpoint escapeStringBody (s : string) : string :=
  match s with
  | EmptyString => EmptyString
  | String a rest =>
      (if decide (nat_of_ascii a = 39%nat) then "\'"
       else if decide (nat_of_ascii a = 92%nat) then "\\"
       else if decide (nat_of_ascii a = 34%nat)
            then String "\" (String a EmptyString)
       else if decide (nat_of_ascii a = 10%nat) then "\n"
       else if decide (nat_of_ascii a = 13%nat) then "\r"
       else if decide (nat_of_ascii a = 9%nat) then "\t"
       else if decide (nat_of_ascii a = 8%nat) then "\b"
       else if decide (nat_of_ascii a = 26%nat) then "\Z"
       else if decide (nat_of_ascii a = 0%nat) then "\0"
       else String a EmptyString) +:+ escapeStringBody rest
  end.

Definition escapeString (s : string) : string :=
  "'" +:+ escapeStringBody s +:+ "'".

Fixpoint escapeValue (fuel : nat) (v : value) : string :=
  match v with
  | VUndefined | VNull => "NULL"
  | VBool true => "true"
  | VBool false => "false"
  | VNum n => pretty n
  | VStr s => escapeString s
  | VDate iso => escapeString iso
  | VArr items =>
      match fuel with
      | O => EmptyString
      | S fuel' =>
          Str.join ", "
            (map (fun i => match i with
                           | VArr _ => "(" +:+ escapeValue fuel' i +:+ ")"
                           | _ => escapeValue fuel' i
                           end) items)
      end
  | VObj fields =>
      match fuel with
      | O => EmptyString
      | S fuel' =>
          Str.join ", "
            (map (fun kv : string * value =>
                    escapeId (fst kv) None +:+ " = " +:+
                    escapeValue fuel' (snd kv)) fields)
      end
  | VQuery _ => escapeString "[object Object]"
  | VSpecial _ data _ => data
  end.

Definition client : Client.t :=
  {| Client.escape := escapeValue 64; Client.escapeKey := escapeId |}.

(** Modelled from the spec: [utils/compound-key] is not among the
    sources. A key is compound when it holds the separator the
    builder joins several keys with, and its columns are the parts
    between the separators. *)
Definition compoundKey : CompoundKey.t :=
  {| CompoundKey.isUsedBy := Str.includes "|";
     CompoundKey.from := Str.split "|" |}.

(** Modelled from the spec: the static helpers of
    [features/orm/relation] are not among the sources. A column name
    carries a relation prefix when it has the form
    [relationAlias.relationColumn]; the two names are the first two
    parts between the dots. *)
Definition relationOps : Relation.ops :=
  {| Relation.isUsedBy := Str.includes ".";
     Relation.parseKey := fun key =>
       match Str.split "." key with
       | a :: c :: _ => (a, c)
       | [a] => (a, "undefined")
       | [] => ("undefined", "undefined")
       end |}.

(** Values for the constants: the names of the identifier and of
    the timestamp columns, the hyphen of a descending sort, and a
    default sorting array at reference 0. *)
Definition constants : Constants.t :=
  {| Constants.InternalId := "id";
     Constants.InternalKeys_Id := "id";
     Constants.CreatedAt := "created_at";
     Constants.UpdatedAt := "updated_at";
     Constants.DeletedAt := "deleted_at";
     Constants.SortSymbol := "-";
     Constants.Defaults_Query_Sort := 0%nat;
     Constants.Defaults_Query_Sort_items := ["id"];
     Constants.Defaults_Query_Skip := 0;
     Constants.Defaults_Query_Limit := 100;
     Constants.version := "6.0.0" |}.

Definition format : Format.t :=
  {| Format.toDatabaseDate := fun iso => iso |}.

(** A mapper that qualifies every key with the class name and gives
    it the key as its output alias, and leaves the rest as it is. *)
Definition queryMapper : QueryMapper.t :=
  {| QueryMapper.getColumnsFrom := fun className selection _ =>
       map (fun k => (className +:+ "." +:+ k, k)) selection;
     QueryMapper.getRelationsFrom := fun _ _ => [];
     QueryMapper.getConstraintsFrom := fun _ constraints => constraints;
     QueryMapper.getSortingFrom := fun _ sorting => sorting |}.

(** A class [Post] with the keys [title], [body] and [status], the
    relation key [author] and the compound key of title and body. *)
Definition Post : Class :=
  {| className := "Post";
     source := "post";
     has := fun key =>
       existsb (String.eqb key)
         ["id"; "title"; "body"; "status"; "author";
          "created_at"; "updated_at"; "deleted_at"; "title|body"];
     definition_keys := ["title"; "body"; "status"];
     definition_timestamps := ["created_at"; "updated_at"; "deleted_at"];
     definition_relations := [] |}.

(** A query of [Post] constrained by [notFoundInAll] on a second
    query, and its options. *)
Definition notFoundInAllQuery : result QueryOptions * Heap :=
  (let* q := Query.new (constants := constants) Post in
   let* p := Query.new (constants := constants) Post in
   Query.notFoundInAll (format := format) q "id" [[("id", p)]] ;;
   Query.toQueryOptions (constants := constants) (mapper := queryMapper) q)
    (Query.loaded (constants := constants)).

(** Two new queries of [Post]. *)
Definition twoQueries : Heap :=
  snd ((Query.new (constants := constants) Post ;;
        Query.new (constants := constants) Post)
         (Query.loaded (constants := constants))).


(** The options of a find clause with two constraints. *)
Definition twoConstraints : FindClauseOptions :=
  {| fc_source := ("post", "Post");
     fc_columns := [("Post.title", "title")];
     fc_relations := [];
     fc_constraints :=
       [("Post.status", [(EqualTo, VStr "published")]);
        ("Post.id", [(GreaterThan, VNum 3)])] |}.

(** A query of [Post] constrained by [foundIn] on itself. *)
Definition insideItself : Heap :=
  snd (Query.foundIn (format := format) 0%nat "id" "id" 0%nat twoQueries).

Definition insideItselfOptions : QueryOptions :=
  {| qo_source := ("post", "Post");
     qo_columns := [("Post.id", "id")];
     qo_relations := [];
     qo_constraints := [("id", [(FoundIn, VQuery 0%nat)])];
     qo_sorting := ["id"];
     qo_skipped := 0;
     qo_limitation := 100 |}.

End Example.

(** * Properties *)

(** ** KeyMap and object properties *)

Module KeyMapFacts.

Lemma get_set (k k' : string) (v : value) (m : KeyMap.t) :
  KeyMap.get k' (KeyMap.set k v m) =
  if String.eqb k' k then Some v else KeyMap.get k' m.
Proof.
  induction m as [|[k0 v0] m IH]; simpl.
  - rewrite (String.eqb_sym k k'). reflexivity.
  - destruct (String.eqb_spec k0 k) as [->|Hne]; simpl.
    + destruct (String.eqb_spec k k') as [->|Hne'].
      * now rewrite String.eqb_refl.
      * destruct (String.eqb_spec k' k); congruence.
    + rewrite IH.
      destruct (String.eqb_spec k0 k') as [->|Hne']; [|reflexivity].
      destruct (String.eqb_spec k' k); congruence.
Qed.

Lemma get_set_eq (k : string) (v : value) (m : KeyMap.t) :
  KeyMap.get k (KeyMap.set k v m) = Some v.
Proof. rewrite get_set. now rewrite String.eqb_refl. Qed.

Lemma remove_set_eq (k : string) (v : value) (m : KeyMap.t) :
  KeyMap.remove k (KeyMap.set k v m) = KeyMap.remove k m.
Proof.
  induction m as [|[k0 v0] m IH]; simpl.
  - now rewrite String.eqb_refl.
  - destruct (String.eqb_spec k0 k) as [->|Hne]; simpl.
    + now rewrite String.eqb_refl.
    + destruct (String.eqb_spec k0 k); [congruence|]. now rewrite IH.
Qed.

Lemma remove_set_ne (k k' : string) (v : value) (m : KeyMap.t) :
  k <> k' ->
  KeyMap.remove k' (KeyMap.set k v m) = KeyMap.set k v (KeyMap.remove k' m).
Proof.
  intros Hkk'. induction m as [|[k0 v0] m IH]; simpl.
  - destruct (String.eqb_spec k k'); congruence.
  - destruct (String.eqb_spec k0 k) as [->|Hne]; simpl.
    + destruct (String.eqb_spec k k'); [congruence|]. simpl.
      now rewrite String.eqb_refl.
    + destruct (String.eqb_spec k0 k') as [->|Hne']; [exact IH|]. simpl.
      destruct (String.eqb_spec k0 k); [congruence|]. now rewrite IH.
Qed.

Lemma remove_idem (k : string) (m : KeyMap.t) :
  KeyMap.remove k (KeyMap.remove k m) = KeyMap.remove k m.
Proof.
  induction m as [|[k0 v0] m IH]; simpl; [reflexivity|].
  destruct (String.eqb_spec k0 k) as [->|Hne]; [exact IH|]. simpl.
  destruct (String.eqb_spec k0 k); [congruence|]. now rewrite IH.
Qed.

(** Stamping two keys, seen from the rest of the KeyMap. *)
Lemma remove_set_set (k1 k2 : string) (v1 v2 : value) (m : KeyMap.t) :
  KeyMap.remove k2 (KeyMap.remove k1 (KeyMap.set k2 v2 (KeyMap.set k1 v1 m))) =
  KeyMap.remove k2 (KeyMap.remove k1 m).
Proof.
  destruct (String.eqb_spec k2 k1) as [->|Hne].
  - now rewrite !remove_set_eq.
  - rewrite (remove_set_ne k2 k1) by exact Hne.
    now rewrite remove_set_eq, remove_set_eq.
Qed.

Lemma getProperty_setProperty (c c' : string) (v : value)
    (fields : list (string * value)) :
  getProperty c' (setProperty c v fields) =
  if String.eqb c' c then Some v else getProperty c' fields.
Proof. exact (get_set c c' v fields). Qed.

End KeyMapFacts.

(** ** Strings *)

Module StrFacts.

Lemma append_assoc (a b c : string) : (a +:+ b) +:+ c = a +:+ (b +:+ c).
Proof.
  induction a as [|x a IH]; [reflexivity|].
  change (String x ((a +:+ b) +:+ c) = String x (a +:+ (b +:+ c))).
  now f_equal.
Qed.

Lemma append_empty_r (a : string) : a +:+ EmptyString = a.
Proof.
  induction a as [|x a IH]; [reflexivity|].
  change (String x (a +:+ EmptyString) = String x a). now f_equal.
Qed.

End StrFacts.

(** ** The write statements *)

Section Writes.

Context {constants : Constants.t} {format : Format.t} {client : Client.t}.

(** C8. On any payload, [create] sets the creation and the update
    timestamp keys to one and the same instant; [update] sets the
    update timestamp key, and the payload without that key is what it
    was; [destroy] sets the update and the deletion timestamp keys to
    the instant, and the payload without those two keys is what it
    was, entry by entry and in the same order. *)
Theorem C8_write_timestamps (iso source : string) (keys : KeyMap.t) (id : value) :
  let now := VStr (MySQLDatabaseAdapter.currentTimestamp iso) in
  let created := snd (MySQLDatabaseAdapter.create iso source keys) in
  let updated := snd (MySQLDatabaseAdapter.update iso source keys id) in
  let destroyed := snd (MySQLDatabaseAdapter.destroy iso source keys id) in
  (KeyMap.get Constants.CreatedAt created = Some now /\
   KeyMap.get Constants.UpdatedAt created = Some now) /\
  (KeyMap.get Constants.UpdatedAt updated = Some now /\
   KeyMap.remove Constants.UpdatedAt updated =
   KeyMap.remove Constants.UpdatedAt keys) /\
  (KeyMap.get Constants.UpdatedAt destroyed = Some now /\
   KeyMap.get Constants.DeletedAt destroyed = Some now /\
   KeyMap.remove Constants.DeletedAt
     (KeyMap.remove Constants.UpdatedAt destroyed) =
   KeyMap.remove Constants.DeletedAt
     (KeyMap.remove Constants.UpdatedAt keys)).
Proof.
  cbv zeta. unfold MySQLDatabaseAdapter.create, MySQLDatabaseAdapter.update,
    MySQLDatabaseAdapter.destroy. cbn [snd].
  repeat split.
  - rewrite !KeyMapFacts.get_set, String.eqb_refl.
    now destruct (String.eqb _ _).
  - apply KeyMapFacts.get_set_eq.
  - apply KeyMapFacts.get_set_eq.
  - apply KeyMapFacts.remove_set_eq.
  - rewrite !KeyMapFacts.get_set, String.eqb_refl.
    now destruct (String.eqb _ _).
  - apply KeyMapFacts.get_set_eq.
  - apply KeyMapFacts.remove_set_set.
Qed.

(** The other keys of the payload, read one by one: [update] leaves
    every key but the update timestamp as it was, [destroy] every key
    but the update and the deletion timestamps. *)
Lemma update_other_keys (iso source : string) (keys : KeyMap.t) (id : value)
    (k : string) :
  k <> Constants.UpdatedAt ->
  KeyMap.get k (snd (MySQLDatabaseAdapter.update iso source keys id)) =
  KeyMap.get k keys.
Proof.
  intros Hk. unfold MySQLDatabaseAdapter.update. cbn [snd].
  rewrite KeyMapFacts.get_set.
  destruct (String.eqb_spec k Constants.UpdatedAt); congruence.
Qed.

Lemma destroy_other_keys (iso source : string) (keys : KeyMap.t) (id : value)
    (k : string) :
  k <> Constants.UpdatedAt -> k <> Constants.DeletedAt ->
  KeyMap.get k (snd (MySQLDatabaseAdapter.destroy iso source keys id)) =
  KeyMap.get k keys.
Proof.
  intros Hu Hd. unfold MySQLDatabaseAdapter.destroy. cbn [snd].
  rewrite !KeyMapFacts.get_set.
  destruct (String.eqb_spec k Constants.DeletedAt); [congruence|].
  destruct (String.eqb_spec k Constants.UpdatedAt); congruence.
Qed.

(** The statement of [update] ends with the text of the identifier
    as the template literal gives it: the part before it does not
    depend on the identifier, and no escaping function is applied to
    it. [destroy] is the same. *)
Lemma update_script_id (iso source : string) (keys : KeyMap.t) :
  exists before : string,
    forall id : value,
      fst (MySQLDatabaseAdapter.update iso source keys id) =
      before +:+ toStr id +:+ "; -- Warp Server " +:+ Constants.version.
Proof.
  exists ("UPDATE " +:+ Client.escapeKey source None +:+ " SET " +:+
          Str.join ", "
            (fold_left
               (fun input (kv : string * value) =>
                  input ++
                  [Client.escapeKey (fst kv) None +:+ " = " +:+
                   Client.escape (snd kv)])
               (KeyMap.toArray
                  (snd (MySQLDatabaseAdapter.update iso source keys VNull)))
               []) +:+
          " WHERE " +:+ Client.escapeKey Constants.InternalId None +:+ " = ").
  intros id. unfold MySQLDatabaseAdapter.update. cbn [fst snd].
  rewrite !StrFacts.append_assoc. reflexivity.
Qed.

Lemma destroy_script_id (iso source : string) (keys : KeyMap.t) :
  exists before : string,
    forall id : value,
      fst (MySQLDatabaseAdapter.destroy iso source keys id) =
      before +:+ toStr id +:+ "; -- Warp Server " +:+ Constants.version.
Proof.
  exists ("UPDATE " +:+ Client.escapeKey source None +:+ " SET " +:+
          Str.join ", "
            (fold_left
               (fun input (kv : string * value) =>
                  input ++
                  [Client.escapeKey (fst kv) None +:+ " = " +:+
                   Client.escape (snd kv)])
               (KeyMap.toArray
                  (snd (MySQLDatabaseAdapter.destroy iso source keys VNull)))
               []) +:+
          " WHERE " +:+ Client.escapeKey Constants.InternalId None +:+ " = ").
  intros id. unfold MySQLDatabaseAdapter.destroy. cbn [fst snd].
  rewrite !StrFacts.append_assoc. reflexivity.
Qed.




End Writes.

(** C1. [update] and [destroy] put the row identifier into the WHERE
    clause as the template literal renders it, without escaping: with
    the identifier [0 OR 1=1] the clause selects every row, while the
    value of the payload in the same statement is quoted. *)
Theorem C1_update_destroy_identifier_not_escaped :
  fst (@MySQLDatabaseAdapter.update Example.constants Example.format
         Example.client "T" "post" [("title", VStr "it's")] (VStr "0 OR 1=1")) =
  "UPDATE `post` SET `title` = 'it\'s', `updated_at` = 'T' WHERE `id` = 0 OR 1=1; -- Warp Server 6.0.0"
  /\
  fst (@MySQLDatabaseAdapter.destroy Example.constants Example.format
         Example.client "T" "post" [] (VStr "0 OR 1=1")) =
  "UPDATE `post` SET `updated_at` = 'T', `deleted_at` = 'T' WHERE `id` = 0 OR 1=1; -- Warp Server 6.0.0"
  /\
  Client.escape (t := Example.client) (VStr "0 OR 1=1") = "'0 OR 1=1'".
Proof. repeat split; vm_compute; reflexivity. Qed.

(** ** The row mapper *)

Section RowMapper.

Context {relops : Relation.ops}.

Lemma mapRows_snoc (row : list (string * value)) (k : string) (v : value) :
  MySQLDatabaseAdapter.mapRows (row ++ [(k, v)]) =
  MySQLDatabaseAdapter.mapRow (MySQLDatabaseAdapter.mapRows row) (k, v).
Proof.
  unfold MySQLDatabaseAdapter.mapRows. rewrite fold_left_app. reflexivity.
Qed.

Lemma mapRow_places (m : KeyMap.t) (k : string) (v : value) :
  Rows.placed k v (MySQLDatabaseAdapter.mapRow m (k, v)).
Proof.
  unfold Rows.placed, Rows.place, MySQLDatabaseAdapter.mapRow. cbn [fst snd].
  destruct (Relation.isUsedBy k).
  - eexists. split; [apply KeyMapFacts.get_set_eq|].
    rewrite KeyMapFacts.getProperty_setProperty. now rewrite String.eqb_refl.
  - apply KeyMapFacts.get_set_eq.
Qed.

(** A later column that does not clash with an earlier one leaves the
    earlier one where it was put. *)
Lemma mapRow_keeps (m : KeyMap.t) (k k' : string) (v v' : value) :
  Rows.clash (Rows.place k) (Rows.place k') = false ->
  Rows.placed k v m ->
  Rows.placed k v (MySQLDatabaseAdapter.mapRow m (k', v')).
Proof.
  unfold Rows.placed, Rows.place, Rows.clash, MySQLDatabaseAdapter.mapRow.
  cbn [fst snd].
  destruct (Relation.isUsedBy k), (Relation.isUsedBy k'); cbn [fst snd];
    intros Hclash Hplaced.
  - destruct Hplaced as (nested & Hget & Hprop).
    rewrite KeyMapFacts.get_set.
    destruct (String.eqb_spec (fst (Relation.parseKey k))
                              (fst (Relation.parseKey k'))) as [Heq|Hne].
    + rewrite <- Heq, Hget. cbn [spread]. eexists. split; [reflexivity|].
      rewrite KeyMapFacts.getProperty_setProperty.
      cbn [andb] in Hclash. now rewrite Hclash.
    + eauto.
  - rewrite KeyMapFacts.get_set.
    rewrite andb_true_r in Hclash. now rewrite Hclash.
  - rewrite KeyMapFacts.get_set.
    rewrite andb_true_r in Hclash. now rewrite Hclash.
  - rewrite KeyMapFacts.get_set.
    rewrite andb_true_r in Hclash. now rewrite Hclash.
Qed.

Lemma fold_mapRow_keeps (rest : list (string * value)) (m : KeyMap.t)
    (k : string) (v : value) :
  forallb (fun k' => negb (Rows.clash (Rows.place k) (Rows.place k')))
          (map fst rest) = true ->
  Rows.placed k v m ->
  Rows.placed k v (fold_left MySQLDatabaseAdapter.mapRow rest m).
Proof.
  revert m. induction rest as [|[k' v'] rest IH]; intros m Hall Hplaced;
    [exact Hplaced|].
  cbn [map fst forallb] in Hall. apply andb_prop in Hall as [Hk' Hall].
  cbn [fold_left]. apply IH; [exact Hall|].
  apply mapRow_keeps; [|exact Hplaced].
  now apply negb_true_iff.
Qed.

Lemma mapRows_clash_free (row : list (string * value)) (k : string)
    (v : value) :
  Rows.clashFree (map fst row) = true ->
  In (k, v) row ->
  Rows.placed k v (MySQLDatabaseAdapter.mapRows row).
Proof.
  unfold MySQLDatabaseAdapter.mapRows. generalize KeyMap.empty.
  induction row as [|[k0 v0] row IH]; intros m Hfree Hin; [contradiction|].
  cbn [map fst Rows.clashFree] in Hfree.
  apply andb_prop in Hfree as [Hk0 Hfree].
  cbn [fold_left]. destruct Hin as [[= -> ->]|Hin].
  - apply fold_mapRow_keeps; [exact Hk0|]. apply mapRow_places.
  - apply IH; assumption.
Qed.

(** C9. The mapper places every column of a row as follows. Whatever
    the row read so far, a column whose name carries a relation prefix
    goes into an object stored under the relation alias: that object
    has the column's value under the relation column and, for the
    rest, the properties of what the alias held before; every other
    top-level key is as it was. A column without a prefix goes onto
    the top-level KeyMap under its own name, and every other key is as
    it was. In the result for a row in which no two columns clash,
    every column is found where it was put. The row of the
    specification maps to the nested record it gives. *)
Theorem C9_mapRows_places_columns :
  (forall (row : list (string * value)) (k : string) (v : value),
     let before := MySQLDatabaseAdapter.mapRows row in
     let after := MySQLDatabaseAdapter.mapRows (row ++ [(k, v)]) in
     if Relation.isUsedBy k then
       let relationName := fst (Relation.parseKey k) in
       let relationKey := snd (Relation.parseKey k) in
       exists nested : list (string * value),
         (forall k', KeyMap.get k' after =
                     if String.eqb k' relationName then Some (VObj nested)
                     else KeyMap.get k' before) /\
         (forall c', getProperty c' nested =
                     if String.eqb c' relationKey then Some v
                     else getProperty c'
                            (spread (KeyMap.get relationName before)))
     else
       forall k', KeyMap.get k' after =
                  if String.eqb k' k then Some v else KeyMap.get k' before)
  /\
  (forall (row : list (string * value)) (k : string) (v : value),
     Rows.clashFree (map fst row) = true ->
     In (k, v) row ->
     Rows.placed k v (MySQLDatabaseAdapter.mapRows row))
  /\
  MySQLDatabaseAdapter.mapRows (relops := Example.relationOps)
    [("id", VNum 1); ("name", VStr "a");
     ("author.id", VNum 2); ("author.name", VStr "b")] =
  [("id", VNum 1); ("name", VStr "a");
   ("author", VObj [("id", VNum 2); ("name", VStr "b")])].
Proof.
  split; [|split; [exact mapRows_clash_free|reflexivity]].
  intros row k v. cbv zeta. rewrite mapRows_snoc.
  unfold MySQLDatabaseAdapter.mapRow. cbn [fst snd].
  destruct (Relation.isUsedBy k).
  - eexists. split.
    + intros k'. apply KeyMapFacts.get_set.
    + intros c'. apply KeyMapFacts.getProperty_setProperty.
  - intros k'. apply KeyMapFacts.get_set.
Qed.

End RowMapper.

(** ** The query builder *)

Section BuilderFacts.

Context {constants : Constants.t} {format : Format.t}.
Context {mapper : QueryMapper.t}.

Lemma set_undeclared (h : Heap) (this : qref) (q : QueryObject)
    (key : string) (c : Constraints) (v : value) :
  queries h !! this = Some q ->
  has (classType q) key = false ->
  Query.set this key c v h = (Err ForbiddenOperation, h).
Proof.
  intros Hq Hhas. unfold Query.set, bind, readQuery.
  rewrite Hq, Hhas. reflexivity.
Qed.

Lemma set_declared (h : Heap) (this : qref) (q : QueryObject)
    (key : string) (c : Constraints) (v : value) :
  queries h !! this = Some q ->
  has (classType q) key = true ->
  Query.set this key c v h =
  (Ok this,
   {| arrays := arrays h;
      queries := <[this := Query.withConstraint q key c v]> (queries h) |}).
Proof.
  intros Hq Hhas. unfold Query.set, bind, readQuery.
  rewrite Hq, Hhas. reflexivity.
Qed.

Ltac fails_in_set Hq Hhas :=
  intros;
  unfold Query.equalTo, Query.notEqualTo, Query.greaterThan,
    Query.greaterThanOrEqualTo, Query.lessThan, Query.lessThanOrEqualTo,
    Query.exists_, Query.doesNotExist, Query.containedIn,
    Query.notContainedIn, Query.containedInOrDoesNotExist,
    Query.startsWith, Query.endsWith, Query.contains,
    Query.containsEither, Query.containsAll, Query.where_, Query.joinKey;
  cbn [forEach fst snd]; unfold bind;
  rewrite (set_undeclared _ _ _ _ _ _ Hq Hhas); reflexivity.

(** C3. A constraint call on a key the class does not declare fails
    in [set], and the error [set] raises is the forbidden-operation
    error, not the invalid-key error; the store is left as it was.
    This holds for [set] itself, for every builder method that goes
    straight to it, and for the generic [where]. *)
Theorem C3_undeclared_constraint_key_raises_forbidden_operation
    (h : Heap) (this : qref) (q : QueryObject) (key : string) :
  queries h !! this = Some q ->
  has (classType q) key = false ->
  (forall c v, Query.set this key c v h = (Err ForbiddenOperation, h)) /\
  (forall v, Query.equalTo this key v h = (Err ForbiddenOperation, h)) /\
  (forall v, Query.notEqualTo this key v h = (Err ForbiddenOperation, h)) /\
  (forall v, Query.greaterThan this key v h = (Err ForbiddenOperation, h)) /\
  (forall v, Query.greaterThanOrEqualTo this key v h =
             (Err ForbiddenOperation, h)) /\
  (forall v, Query.lessThan this key v h = (Err ForbiddenOperation, h)) /\
  (forall v, Query.lessThanOrEqualTo this key v h =
             (Err ForbiddenOperation, h)) /\
  Query.exists_ this key h = (Err ForbiddenOperation, h) /\
  Query.doesNotExist this key h = (Err ForbiddenOperation, h) /\
  (forall v, Query.containedIn this key v h = (Err ForbiddenOperation, h)) /\
  (forall v, Query.notContainedIn this key v h =
             (Err ForbiddenOperation, h)) /\
  (forall v, Query.containedInOrDoesNotExist this key v h =
             (Err ForbiddenOperation, h)) /\
  (forall v, Query.startsWith this key v h = (Err ForbiddenOperation, h)) /\
  (forall v, Query.endsWith this key v h = (Err ForbiddenOperation, h)) /\
  (forall v, Query.contains this (One key) v h =
             (Err ForbiddenOperation, h)) /\
  (forall v, Query.containsEither this (One key) v h =
             (Err ForbiddenOperation, h)) /\
  (forall v, Query.containsAll this (One key) v h =
             (Err ForbiddenOperation, h)) /\
  (forall c v rest more,
     Query.where_ this ((key, (c, v) :: rest) :: more) h =
     (Err ForbiddenOperation, h)).
Proof.
  intros Hq Hhas. repeat split; fails_in_set Hq Hhas.
Qed.

(** C10. [select] with no argument fails with the
    missing-configuration error and leaves the store as it was;
    [select] with an empty list as its first argument does not fail:
    it returns the query and leaves the store, and so the selection,
    as it was. *)
Theorem C10_select_without_keys (h : Heap) (this : qref)
    (rest : list KeyArg) :
  Query.select this [] h = (Err MissingConfiguration, h) /\
  Query.select this (Many [] :: rest) h = (Ok this, h).
Proof. split; reflexivity. Qed.

Lemma new_spec (C : Class) (h : Heap) :
  Query.new C h =
  (Ok (length (queries h)),
   {| arrays := arrays h;
      queries := queries h ++
        [ {| classType := C; selection := []; included := [];
             constraints := ConstraintMap.empty;
             sorting := Constants.Defaults_Query_Sort;
             skipped := Constants.Defaults_Query_Skip;
             limitation := Constants.Defaults_Query_Limit |} ] |}).
Proof. reflexivity. Qed.

(** C5. Two queries made one after the other hold the same sorting
    array, the one [Defaults.Query.Sort] names: [sortBy] on the first
    pushes its key onto that array, so the sorting of the second,
    and the sorting of its [toQueryOptions], change with it. *)
Theorem C5_sortBy_changes_the_other_query
    (h : Heap) (C D : Class) (key : string) (items : list string) :
  arrays h !! Constants.Defaults_Query_Sort = Some items ->
  has C (Query.rawKey key) = true ->
  let q1 := length (queries h) in
  let q2 := S (length (queries h)) in
  exists h2 h3 : Heap,
    (let* a := Query.new C in let* b := Query.new D in ret (a, b)) h =
    (Ok (q1, q2), h2) /\
    q1 <> q2 /\
    sortingOf q2 h2 = Some items /\
    Query.sortBy q1 [One key] h2 = (Ok q1, h3) /\
    sortingOf q2 h3 = Some (items ++ [key]) /\
    items ++ [key] <> items /\
    (exists o2, Query.toQueryOptions q2 h2 = (Ok o2, h2) /\
       qo_sorting o2 = QueryMapper.getSortingFrom (className D) items) /\
    (exists o3, Query.toQueryOptions q2 h3 = (Ok o3, h3) /\
       qo_sorting o3 =
       QueryMapper.getSortingFrom (className D) (items ++ [key])).
Proof.
  intros Hitems Hhas q1 q2.
  eexists. eexists.
  split; [unfold bind; rewrite !new_spec; cbn; rewrite length_app; cbn;
          replace (length (queries h) + 1)%nat with (S (length (queries h)))
            by lia; reflexivity|].
  assert (Hq1 : forall a b : QueryObject,
             ((queries h ++ [a]) ++ [b]) !! q1 = Some a).
  { intros a b. rewrite <- app_assoc. apply list_lookup_middle. reflexivity. }
  assert (Hq2 : forall a b : QueryObject,
             ((queries h ++ [a]) ++ [b]) !! q2 = Some b).
  { intros a b. unfold q2.
    rewrite lookup_app_r; rewrite length_app; cbn [length]; [|lia].
    replace (S (length (queries h)) - (length (queries h) + 1))%nat
      with 0%nat by lia.
    reflexivity. }
  assert (Hlt : (Constants.Defaults_Query_Sort < length (arrays h))%nat)
    by (eapply lookup_lt_Some; exact Hitems).
  split; [unfold q1, q2; lia|].
  split; [unfold sortingOf; cbn; rewrite Hq2; cbn; exact Hitems|].
  split.
  { unfold Query.sortBy, Query.keyList, bind. cbn [forEach].
    unfold bind, Query.sortByKey, bind, readQuery. cbn [queries].
    rewrite Hq1. cbn [classType sorting]. rewrite Hhas. cbn [negb].
    unfold pushArray. cbn [arrays]. rewrite Hitems. reflexivity. }
  split.
  { unfold sortingOf. cbn [queries arrays]. rewrite Hq2. cbn [sorting].
    apply list_lookup_insert_eq. exact Hlt. }
  split.
  { intros Heq. apply (f_equal (@length string)) in Heq.
    rewrite length_app in Heq. cbn in Heq. lia. }
  split.
  - eexists. split.
    + unfold Query.toQueryOptions, bind, readQuery. cbn [queries].
      rewrite Hq2. unfold readArray. cbn [arrays sorting].
      rewrite Hitems. reflexivity.
    + reflexivity.
  - eexists. split.
    + unfold Query.toQueryOptions, bind, readQuery. cbn [queries].
      rewrite Hq2. unfold readArray. cbn [arrays sorting].
      rewrite list_lookup_insert_eq by exact Hlt. reflexivity.
    + reflexivity.
Qed.

End BuilderFacts.

(** C10, the call the claim fails on: [select([])] on a new query of
    the class [Post] returns the query. *)
Lemma C10_select_empty_list_returns :
  let h := snd (Query.new (constants := Example.constants) Example.Post
                  (Query.loaded (constants := Example.constants))) in
  Query.select 0%nat [Many []] h = (Ok 0%nat, h) /\
  Query.select 0%nat [Many []] h <> (Err MissingConfiguration, h) /\
  (selection <$> queries h !! 0%nat) = Some [].
Proof.
  cbv zeta. split; [reflexivity|].
  split; [vm_compute; discriminate|reflexivity].
Qed.

(** C3 on a new query of the class [Post] and the key [nope]. *)
Lemma C3_undeclared_constraint_key_witness :
  let h := snd (Query.new (constants := Example.constants) Example.Post
                  (Query.loaded (constants := Example.constants))) in
  Query.equalTo (format := Example.format) 0%nat "nope" (VNum 1) h =
  (Err ForbiddenOperation, h).
Proof.
  cbv zeta.
  refine (proj1 (proj2
    (C3_undeclared_constraint_key_raises_forbidden_operation
       (format := Example.format) _ 0%nat _ "nope" _ _)) (VNum 1));
    reflexivity.
Defined.

(** C5 on two new queries of the class [Post]: after [sortBy('title')]
    on the first, the second sorts by [id] and then by [title]. *)
Lemma C5_sortBy_changes_the_other_query_witness :
  exists h2 h3 : Heap,
    (let* a := Query.new (constants := Example.constants) Example.Post in
     let* b := Query.new (constants := Example.constants) Example.Post in
     ret (a, b)) (Query.loaded (constants := Example.constants)) =
    (Ok (0%nat, 1%nat), h2) /\
    sortingOf 1%nat h2 = Some ["id"] /\
    Query.sortBy 0%nat [One "title"] h2 =
    (Ok 0%nat, h3) /\
    sortingOf 1%nat h3 = Some ["id"; "title"].
Proof.
  destruct (C5_sortBy_changes_the_other_query
              (constants := Example.constants) (mapper := Example.queryMapper)
              (Query.loaded (constants := Example.constants))
              Example.Post Example.Post "title" ["id"]
              eq_refl eq_refl)
    as (h2 & h3 & H1 & _ & H2 & H3 & H4 & _).
  exists h2, h3. repeat split; assumption.
Defined.

(** ** The table of fragment generators *)

Lemma rbind_Ok {A} (r : result A) : rbind r Ok = r.
Proof. now destruct r. Qed.

Lemma rmap_Ok {A B} (g : A -> B) (l : list A) :
  rmap (fun a => Ok (g a)) l = Ok (map g l).
Proof.
  induction l as [|a l IH]; [reflexivity|].
  cbn [rmap rbind map]. now rewrite IH.
Qed.

Section TemplateFacts.
Context {client : Client.t} {compound : CompoundKey.t}.
Variable subq : value -> result string.
Variable k : string.
Local Abbreviation render := (Template.render MySQLDatabaseAdapter.regularEscape subq k).

Lemma render_app (a b : list Template.piece) :
  render (a ++ b) =
  rbind (render a) (fun x => rbind (render b) (fun y => Ok (x +:+ y))).
Proof.
  induction a as [|p a IH]; cbn [app Template.render rbind].
  - change (fun y : string => Ok (EmptyString +:+ y)) with (@Ok string).
    now rewrite rbind_Ok.
  - rewrite IH.
    destruct (match p with Template.Text s => Ok s | Template.KeyHole => Ok k
              | Template.ValueHole v => Ok (MySQLDatabaseAdapter.regularEscape v)
              | Template.SubqueryHole v => subq v end) as [s|e];
      cbn [rbind]; [|reflexivity].
    destruct (render a) as [x|e]; cbn [rbind]; [|reflexivity].
    destruct (render b) as [y|e]; cbn [rbind]; [|reflexivity].
    change (String.app s (x +:+ y)) with (s +:+ (x +:+ y)).
    now rewrite StrFacts.append_assoc.
Qed.

Lemma render_separated (g : value -> list Template.piece)
    (G : value -> result string) (sep : string) (l : list value) :
  (forall i, render (g i) = G i) ->
  render (Template.separated sep (map g l)) =
  rbind (rmap G l) (fun ss => Ok (Str.join sep ss)).
Proof.
  intros HG. induction l as [|i rest IH]; [reflexivity|].
  destruct rest as [|j rest'].
  - cbn [map Template.separated rmap rbind]. rewrite HG.
    destruct (G i); reflexivity.
  - change (Template.separated sep (map g (i :: j :: rest')))
      with (g i ++ Template.Text sep ::
            Template.separated sep (map g (j :: rest'))).
    rewrite render_app, HG. cbn [Template.render rbind]. rewrite IH.
    cbn [rmap rbind].
    destruct (G i) as [s|e]; cbn [rbind]; [|reflexivity].
    destruct (G j) as [t|e]; cbn [rbind]; [|reflexivity].
    destruct (rmap G rest') as [ts|e]; cbn [rbind]; reflexivity.
Qed.

Lemma render_value_group (sep : string) (l : list value)
    (tail : list Template.piece) (tl : string) :
  render tail = Ok tl ->
  render (Template.separated sep (map (fun i => [Template.ValueHole i]) l)
          ++ tail) =
  Ok (Str.join sep (map MySQLDatabaseAdapter.regularEscape l) +:+ tl).
Proof.
  intros Htail. rewrite render_app, Htail.
  rewrite (render_separated _
             (fun i => Ok (MySQLDatabaseAdapter.regularEscape i))).
  - now rewrite rmap_Ok.
  - intros i. cbn [Template.render rbind].
    now rewrite StrFacts.append_empty_r.
Qed.

Lemma render_group (g : value -> list Template.piece)
    (G : value -> result string) (sep : string) (l : list value) :
  (forall i, render (g i) = G i) ->
  render (Template.Text "(" :: Template.separated sep (map g l)
          ++ [Template.Text ")"]) =
  rbind (rmap G l) (fun ss => Ok ("(" +:+ Str.join sep ss +:+ ")")).
Proof.
  intros HG. cbn [Template.render rbind].
  rewrite render_app, (render_separated g G sep l HG).
  cbn [Template.render rbind].
  destruct (rmap G l) as [ss|e]; cbn [rbind]; reflexivity.
Qed.

Lemma render_like (pattern : value) :
  render (Template.like pattern) =
  Ok (k +:+ " LIKE " +:+ MySQLDatabaseAdapter.regularEscape pattern).
Proof.
  cbn [Template.like Template.render rbind].
  now rewrite StrFacts.append_empty_r.
Qed.

Lemma render_inSubquery (op : string) (query : value) :
  render (Template.inSubquery op query) =
  rbind (subq query) (fun q => Ok (k +:+ op +:+ q +:+ ")")).
Proof.
  cbn [Template.inSubquery Template.render rbind].
  destruct (subq query); reflexivity.
Qed.

Lemma constraints_template (c : Constraints) (v : value) :
  match Template.template c v with
  | Some (Ok tpl) =>
      exists f, MySQLDatabaseAdapter.constraints subq c = Some f /\
                f k v = render tpl
  | Some (Err e) =>
      exists f, MySQLDatabaseAdapter.constraints subq c = Some f /\
                f k v = Err e
  | None => MySQLDatabaseAdapter.constraints subq c = None
  end.
Proof.
  destruct c; cbn [Template.template MySQLDatabaseAdapter.constraints];
    try reflexivity;
    try (eexists; split; [reflexivity|];
         cbn [Template.render rbind];
         rewrite ?StrFacts.append_empty_r, ?render_like, ?render_inSubquery;
         reflexivity).
  all: destruct v; cbn [Template.items rbind];
    try (eexists; split; [reflexivity|]; reflexivity).
  all: eexists; (split; [reflexivity|]).
  1-3: cbv beta; unfold MySQLDatabaseAdapter.collectionEscape,
         MySQLDatabaseAdapter.mapValue;
       rewrite rmap_Ok; cbn [rbind app Template.render];
       erewrite render_value_group by reflexivity;
       cbn [rbind]; rewrite ?StrFacts.append_assoc; reflexivity.
  1-2: cbv beta; unfold MySQLDatabaseAdapter.mapValue;
       erewrite render_group by (intros i; apply render_like);
       reflexivity.
  all: cbv beta; unfold MySQLDatabaseAdapter.mapValue;
       erewrite render_group by (intros i; apply render_inSubquery);
       reflexivity.
Qed.
End TemplateFacts.

Module TemplateCount.
Import Template.

Lemma keyHoles_app (a b : list piece) :
  keyHoles (a ++ b) = (keyHoles a + keyHoles b)%nat.
Proof.
  induction a as [|p a IH]; [reflexivity|].
  destruct p; cbn [app keyHoles]; rewrite IH; reflexivity.
Qed.

Lemma valueHoles_app (a b : list piece) :
  valueHoles (a ++ b) = valueHoles a ++ valueHoles b.
Proof.
  induction a as [|p a IH]; [reflexivity|].
  destruct p; cbn [app valueHoles]; rewrite IH; reflexivity.
Qed.

Lemma subqueryHoles_app (a b : list piece) :
  subqueryHoles (a ++ b) = subqueryHoles a ++ subqueryHoles b.
Proof.
  induction a as [|p a IH]; [reflexivity|].
  destruct p; cbn [app subqueryHoles]; rewrite IH; reflexivity.
Qed.

(** The holes of a separated sequence of groups, when every group
    has [n] key holes, the value holes [vs i] and the sub-query
    holes [qs i]. *)
Lemma holes_separated (g : value -> list piece) (n : nat)
    (vs qs : value -> list value) (sep : string) (l : list value) :
  (forall i, keyHoles (g i) = n) ->
  (forall i, valueHoles (g i) = vs i) ->
  (forall i, subqueryHoles (g i) = qs i) ->
  keyHoles (separated sep (map g l)) = (length l * n)%nat /\
  valueHoles (separated sep (map g l)) = concat (map vs l) /\
  subqueryHoles (separated sep (map g l)) = concat (map qs l).
Proof.
  intros Hk Hv Hq. induction l as [|i rest IH]; [now cbn|].
  destruct rest as [|j rest'].
  - cbn [map separated length concat]. rewrite Hk, Hv, Hq, !app_nil_r.
    repeat split; try reflexivity; try lia.
  - change (separated sep (map g (i :: j :: rest')))
      with (g i ++ Text sep :: separated sep (map g (j :: rest'))).
    destruct IH as (IHk & IHv & IHq).
    rewrite keyHoles_app, valueHoles_app, subqueryHoles_app.
    cbn [keyHoles valueHoles subqueryHoles].
    rewrite IHk, IHv, IHq, Hk, Hv, Hq.
    repeat split; try reflexivity; cbn [length]; try lia.
Qed.

Lemma concat_singletons {A} (l : list A) : concat (map (fun i => [i]) l) = l.
Proof. induction l as [|a l IH]; [reflexivity|]. cbn. now rewrite IH. Qed.

Lemma concat_nils {A B} (l : list A) :
  concat (map (fun _ : A => @nil B) l) = [].
Proof. induction l as [|a l IH]; [reflexivity|]. exact IH. Qed.

Lemma concat_map_singleton {A B} (f : A -> B) (l : list A) :
  concat (map (fun i => [f i]) l) = map f l.
Proof. induction l as [|a l IH]; [reflexivity|]. cbn. now rewrite IH. Qed.

Lemma template_holes (c : Constraints) (v : value) (tpl : list piece) :
  template c v = Some (Ok tpl) ->
  keyHoles tpl = keyOccurrences c (listed v) /\
  valueHoles tpl = escapedValues c v (listed v) /\
  subqueryHoles tpl = compiledQueries c v (listed v).
Proof.
  destruct c; cbn [template]; intros Htpl;
    try discriminate;
    try (injection Htpl as <-; repeat split; reflexivity).
  all: destruct v; try discriminate; cbn [items rbind] in Htpl;
    injection Htpl as <-; cbn [listed].
  1-3: destruct (holes_separated (fun i => [ValueHole i]) 0
                   (fun i => [i]) (fun _ => []) ", " items0
                   (fun _ => eq_refl) (fun _ => eq_refl) (fun _ => eq_refl))
         as (Hk & Hv & Hq);
       cbn [keyHoles valueHoles subqueryHoles];
       rewrite ?keyHoles_app, ?valueHoles_app, ?subqueryHoles_app, Hk, Hv, Hq,
         concat_singletons, concat_nils;
       cbn [keyHoles valueHoles subqueryHoles keyOccurrences escapedValues
            compiledQueries length app Nat.add Nat.mul];
       rewrite ?app_nil_r; repeat split; try reflexivity; try lia.
  1-2: match goal with
       | |- context [separated ?sep (map ?g _)] =>
           destruct (holes_separated g 1
                       (fun i => [VStr ("%" +:+ toStr i +:+ "%")])
                       (fun _ => []) sep items0
                       (fun _ => eq_refl) (fun _ => eq_refl)
                       (fun _ => eq_refl)) as (Hk & Hv & Hq)
       end;
       cbn [keyHoles valueHoles subqueryHoles];
       rewrite ?keyHoles_app, ?valueHoles_app, ?subqueryHoles_app, Hk, Hv, Hq,
         concat_nils, concat_map_singleton;
       cbn [keyHoles valueHoles subqueryHoles keyOccurrences escapedValues
            compiledQueries length app Nat.add Nat.mul];
       rewrite ?app_nil_r; repeat split; try reflexivity; try lia.
  all: match goal with
       | |- context [separated ?sep (map ?g _)] =>
           destruct (holes_separated g 1 (fun _ => []) (fun i => [i])
                       sep items0
                       (fun _ => eq_refl) (fun _ => eq_refl)
                       (fun _ => eq_refl)) as (Hk & Hv & Hq)
       end;
       cbn [keyHoles valueHoles subqueryHoles];
       rewrite ?keyHoles_app, ?valueHoles_app, ?subqueryHoles_app, Hk, Hv, Hq,
         concat_nils, concat_singletons;
       cbn [keyHoles valueHoles subqueryHoles keyOccurrences escapedValues
            compiledQueries length app Nat.add Nat.mul];
       rewrite ?app_nil_r; repeat split; try reflexivity; try lia.
Qed.
End TemplateCount.

Section Matrix.

Context {client : Client.t} {compound : CompoundKey.t}.

(** Every kind of the builder but [notFoundInAll] has a generator. *)
Lemma builder_kinds_in_table (subq : value -> result string)
    (c : Constraints) :
  In c builderKinds -> c <> NotFoundInAll ->
  exists f, MySQLDatabaseAdapter.constraints subq c = Some f.
Proof.
  intros Hin Hne. cbn in Hin.
  repeat (destruct Hin as [<-|Hin];
          [first [congruence | eexists; reflexivity]|]).
  contradiction.
Qed.

Lemma parseConstraint_notFoundInAll (subq : value -> result string)
    (key : string) (v : value) :
  MySQLDatabaseAdapter.parseConstraint subq key NotFoundInAll v =
  Err ForbiddenOperation.
Proof. reflexivity. Qed.

(** C6. The fragment of a constraint is its kind's template filled
    from left to right with the escaped key, the escaped values and
    the compiled sub-queries. The template holds the key once for
    the comparisons, [exists], the two membership kinds, the pattern
    kinds and the two single sub-query kinds, twice for
    [containedInOrDoesNotExist], and once per listed item for the
    five groups; it holds each escaped value once (a pattern kind
    escapes the value with its wildcards), none for [exists], and
    each sub-query once. *)
Theorem C6_fragment_fills_the_template
    (subq : value -> result string) (c : Constraints) (key : string)
    (v : value) (tpl : list Template.piece) :
  Template.template c v = Some (Ok tpl) ->
  MySQLDatabaseAdapter.parseConstraint subq key c v =
  Template.render MySQLDatabaseAdapter.regularEscape subq
    (MySQLDatabaseAdapter.escapeKey key false) tpl /\
  Template.keyHoles tpl = Template.keyOccurrences c (Template.listed v) /\
  Template.valueHoles tpl = Template.escapedValues c v (Template.listed v) /\
  Template.subqueryHoles tpl =
  Template.compiledQueries c v (Template.listed v).
Proof.
  intros Htpl. split; [|exact (TemplateCount.template_holes c v tpl Htpl)].
  pose proof (constraints_template subq
                (MySQLDatabaseAdapter.escapeKey key false) c v) as Hlink.
  rewrite Htpl in Hlink. destruct Hlink as (f & Hf & Hfrag).
  unfold MySQLDatabaseAdapter.parseConstraint. rewrite Hf. exact Hfrag.
Qed.

(** A kind of the table has a template for every value, and the
    template is defined when a list-valued kind is given an array:
    otherwise the generator fails with the same [TypeError]. *)
Lemma template_of_table (subq : value -> result string) (c : Constraints)
    (key : string) (v : value) :
  match MySQLDatabaseAdapter.constraints subq c with
  | Some _ =>
      (exists tpl, Template.template c v = Some (Ok tpl)) \/
      (Template.template c v = Some (Err TypeError) /\
       MySQLDatabaseAdapter.parseConstraint subq key c v = Err TypeError)
  | None => Template.template c v = None
  end.
Proof.
  destruct c; cbn [MySQLDatabaseAdapter.constraints Template.template];
    try reflexivity; try (left; eexists; reflexivity).
  all: destruct v; cbn [Template.items rbind];
    try (left; eexists; reflexivity); right; split; reflexivity.
Qed.

End Matrix.

Section CompilerFacts.

Context {constants : Constants.t} {format : Format.t}.
Context {mapper : QueryMapper.t} {client : Client.t}.
Context {compound : CompoundKey.t}.

Lemma getFindClause_S (fuel : nat) (h : Heap) (o : FindClauseOptions) :
  MySQLDatabaseAdapter.getFindClause (S fuel) h o =
  MySQLDatabaseAdapter.findClause
    (MySQLDatabaseAdapter.subqueryEscape fuel h) o.
Proof. reflexivity. Qed.

Lemma toSubquery_spec (h : Heap) (sub : qref) (p : QueryObject) (y : string) :
  queries h !! sub = Some p ->
  has (classType p) y = true ->
  Query.toSubquery sub y h =
  (Ok sub,
   {| arrays := arrays h;
      queries := <[sub := Query.narrowed p y]> (queries h) |}).
Proof.
  intros Hp Hhas.
  assert (Hlt : (sub < length (queries h))%nat)
    by (eapply lookup_lt_Some; exact Hp).
  unfold Query.toSubquery, bind, readQuery. rewrite Hp.
  unfold writeQuery. cbn [arrays queries].
  unfold Query.select, Query.keyList, bind. cbn [length Nat.eqb forEach].
  unfold bind, Query.selectKey, bind, readQuery. cbn [queries].
  rewrite list_lookup_insert_eq by exact Hlt.
  cbn [classType]. rewrite Hhas. cbn [negb].
  unfold writeQuery, ret. cbn [arrays queries selection included
    constraints sorting skipped limitation classType app].
  rewrite list_insert_insert_eq. reflexivity.
Qed.


(** C4. [contains], [containsEither] and [containsAll] given several
    keys store one constraint whose key is the keys joined with [|].
    When that key is a compound key of those keys, its column
    expression is one [CONCAT(...)] over the escaped keys, and the
    compiled predicate is one LIKE fragment on that expression for
    [contains], and for [containsEither] and [containsAll] an OR
    group and an AND group with one such LIKE fragment per listed
    term. *)
Theorem C4_contains_over_several_keys
    (h : Heap) (this : qref) (q : QueryObject) (keys : list string)
    (term : string) (subq : value -> result string) :
  queries h !! this = Some q ->
  has (classType q) (Str.join "|" keys) = true ->
  CompoundKey.isUsedBy (Str.join "|" keys) = true ->
  CompoundKey.from (Str.join "|" keys) = keys ->
  let key := Str.join "|" keys in
  let column :=
    "CONCAT(" +:+
    Str.join "," (map (fun k => Client.escapeKey k None) keys) +:+ ")" in
  let like := fun t : string =>
    column +:+ " LIKE " +:+ Client.escape (VStr ("%" +:+ t +:+ "%")) in
  let added := fun (c : Constraints) (v : value) =>
    (Ok this,
     {| arrays := arrays h;
        queries := <[this := Query.withConstraint q key c v]> (queries h) |}) in
  (Query.contains this (Many keys) term h = added Contains (VStr term) /\
   MySQLDatabaseAdapter.parseConstraint subq key Contains (VStr term) =
   Ok (like term)) /\
  (forall terms : list string,
     Query.containsEither this (Many keys) terms h =
     added ContainsEither (VArr (map VStr terms)) /\
     MySQLDatabaseAdapter.parseConstraint subq key ContainsEither
       (VArr (map VStr terms)) =
     Ok ("(" +:+ Str.join " OR " (map like terms) +:+ ")")) /\
  (forall terms : list string,
     Query.containsAll this (Many keys) terms h =
     added ContainsAll (VArr (map VStr terms)) /\
     MySQLDatabaseAdapter.parseConstraint subq key ContainsAll
       (VArr (map VStr terms)) =
     Ok ("(" +:+ Str.join " AND " (map like terms) +:+ ")")).
Proof.
  intros Hq Hhas Hused Hfrom. cbv zeta.
  unfold Query.contains, Query.containsEither, Query.containsAll,
    Query.joinKey, MySQLDatabaseAdapter.parseConstraint,
    MySQLDatabaseAdapter.escapeKey.
  rewrite Hused, Hfrom.
  cbn [MySQLDatabaseAdapter.constraints].
  unfold MySQLDatabaseAdapter.mapValue.
  repeat split; intros;
    try (unfold bind; erewrite set_declared by eassumption; reflexivity).
  - rewrite rmap_Ok, map_map. reflexivity.
  - rewrite rmap_Ok, map_map. reflexivity.
Qed.

End CompilerFacts.

(** ** The depth of sub-queries *)

Section Fuel.

Context {constants : Constants.t} {mapper : QueryMapper.t}.
Context {client : Client.t} {compound : CompoundKey.t}.

Lemma rmap_extends {A B} (F G : A -> result B) (l : list A) (ys : list B) :
  (forall x y, F x = Ok y -> G x = Ok y) ->
  rmap F l = Ok ys -> rmap G l = Ok ys.
Proof.
  intros HFG. revert ys. induction l as [|a l IH]; intros ys; [trivial|].
  cbn [rmap]. destruct (F a) as [b|e] eqn:Ha; [|discriminate].
  rewrite (HFG a b Ha). cbn [rbind].
  destruct (rmap F l) as [bs|e]; [|discriminate].
  rewrite (IH bs eq_refl). trivial.
Qed.

Lemma rbind_extends {A B} (r r' : result A) (k : A -> result B) (s : B) :
  (forall a, r = Ok a -> r' = Ok a) ->
  rbind r k = Ok s -> rbind r' k = Ok s.
Proof.
  intros Hr. destruct r as [a|e]; [|discriminate].
  now rewrite (Hr a eq_refl).
Qed.

Lemma parseConstraint_extends (f g : value -> result string)
    (key : string) (c : Constraints) (v : value) (s : string) :
  extends f g ->
  MySQLDatabaseAdapter.parseConstraint f key c v = Ok s ->
  MySQLDatabaseAdapter.parseConstraint g key c v = Ok s.
Proof.
  intros Hfg. unfold MySQLDatabaseAdapter.parseConstraint.
  destruct c; cbn [MySQLDatabaseAdapter.constraints]; trivial.
  - apply rbind_extends. apply Hfg.
  - apply rbind_extends. intros l. unfold MySQLDatabaseAdapter.mapValue.
    destruct v; trivial. apply rmap_extends. intros x y.
    apply rbind_extends. apply Hfg.
  - apply rbind_extends. intros l. unfold MySQLDatabaseAdapter.mapValue.
    destruct v; trivial. apply rmap_extends. intros x y.
    apply rbind_extends. apply Hfg.
  - apply rbind_extends. apply Hfg.
  - apply rbind_extends. intros l. unfold MySQLDatabaseAdapter.mapValue.
    destruct v; trivial. apply rmap_extends. intros x y.
    apply rbind_extends. apply Hfg.
Qed.

Lemma findClause_extends (f g : value -> result string)
    (o : FindClauseOptions) (s : string) :
  extends f g ->
  MySQLDatabaseAdapter.findClause f o = Ok s ->
  MySQLDatabaseAdapter.findClause g o = Ok s.
Proof.
  intros Hfg. unfold MySQLDatabaseAdapter.findClause.
  apply rbind_extends. intros l. apply rmap_extends. intros c y.
  now apply parseConstraint_extends.
Qed.

Lemma getFindClause_one_more (fuel : nat) (h : Heap) :
  forall (o : FindClauseOptions) (s : string),
    MySQLDatabaseAdapter.getFindClause fuel h o = Ok s ->
    MySQLDatabaseAdapter.getFindClause (S fuel) h o = Ok s.
Proof.
  induction fuel as [|n IHn]; intros o s Hs; [discriminate|].
  change (MySQLDatabaseAdapter.findClause
            (MySQLDatabaseAdapter.subqueryEscape (S n) h) o = Ok s).
  change (MySQLDatabaseAdapter.findClause
            (MySQLDatabaseAdapter.subqueryEscape n h) o = Ok s) in Hs.
  revert Hs. apply findClause_extends.
  intros v t. unfold MySQLDatabaseAdapter.subqueryEscape.
  destruct v; trivial.
  destruct (Query.toQueryOptions q h) as [[qo|e] h']; trivial.
  apply IHn.
Qed.

(** The depth allowed is only a budget: a find clause compiled within
    some depth is compiled to the same text within any greater one. *)
Lemma getFindClause_more_fuel (fuel more : nat) (h : Heap)
    (o : FindClauseOptions) (s : string) :
  MySQLDatabaseAdapter.getFindClause fuel h o = Ok s ->
  MySQLDatabaseAdapter.getFindClause (more + fuel) h o = Ok s.
Proof.
  intros Hs. induction more as [|more IH]; [exact Hs|].
  apply getFindClause_one_more. exact IH.
Qed.

Lemma rmap_total {A B} (F : A -> result B) (l : list A) :
  (forall x, In x l -> exists y, F x = Ok y) ->
  exists ys, rmap F l = Ok ys.
Proof.
  induction l as [|a l IH]; intros HF; [now exists []|].
  destruct (HF a (or_introl eq_refl)) as [b Hb].
  destruct IH as [bs Hbs]; [intros x Hx; apply HF; now right|].
  exists (b :: bs). cbn [rmap]. now rewrite Hb, Hbs.
Qed.

(** A query whose constraints compile without a sub-query has a find
    clause, at every depth but zero. *)
Lemma getFindClause_total (fuel : nat) (h : Heap) (o : FindClauseOptions) :
  forallb compilesAlone (concat (ConstraintMap.toArray (fc_constraints o))) =
  true ->
  exists s, MySQLDatabaseAdapter.getFindClause (S fuel) h o = Ok s.
Proof.
  intros Hall. cbn [MySQLDatabaseAdapter.getFindClause].
  unfold MySQLDatabaseAdapter.findClause.
  match goal with
  | |- context [rmap ?F ?l] => destruct (rmap_total F l) as [ys Hys]
  end.
  - intros c Hc. rewrite forallb_forall in Hall. specialize (Hall c Hc).
    unfold compilesAlone in Hall.
    unfold MySQLDatabaseAdapter.parseConstraint.
    destruct (co_constraint c); try discriminate;
      cbn [MySQLDatabaseAdapter.constraints]; try (eexists; reflexivity).
    all: destruct (co_value c); try discriminate;
      unfold MySQLDatabaseAdapter.collectionEscape,
        MySQLDatabaseAdapter.mapValue;
      rewrite rmap_Ok; eexists; reflexivity.
  - rewrite Hys. eexists. reflexivity.
Qed.

End Fuel.

(** ** The compound key of the examples *)

Module CompoundFacts.

Lemma split_go_plain (c : ascii) (k cur : string) :
  Str.includes c k = false ->
  Str.split_go c cur k = [cur +:+ k].
Proof.
  revert cur. induction k as [|a k IH]; intros cur Hk; cbn [Str.split_go].
  - now rewrite StrFacts.append_empty_r.
  - cbn [Str.includes] in Hk. destruct (Ascii.eqb a c); [discriminate|].
    rewrite (IH _ Hk), StrFacts.append_assoc. reflexivity.
Qed.

Lemma split_go_sep (c : ascii) (k rest cur : string) :
  Str.includes c k = false ->
  Str.split_go c cur (k +:+ String c rest) =
  (cur +:+ k) :: Str.split_go c EmptyString rest.
Proof.
  revert cur. induction k as [|a k IH]; intros cur Hk.
  - change (EmptyString +:+ String c rest) with (String c rest).
    cbn [Str.split_go]. rewrite Ascii.eqb_refl.
    now rewrite StrFacts.append_empty_r.
  - cbn [Str.includes] in Hk.
    change (String a k +:+ String c rest) with (String a (k +:+ String c rest)).
    cbn [Str.split_go]. destruct (Ascii.eqb a c); [discriminate|].
    rewrite (IH _ Hk), StrFacts.append_assoc. reflexivity.
Qed.

(** Splitting what [join] made of keys that do not hold the separator
    gives the keys back. *)
Lemma split_join (c : ascii) (keys : list string) :
  keys <> [] ->
  forallb (fun k => negb (Str.includes c k)) keys = true ->
  Str.split c (Str.join (String c EmptyString) keys) = keys.
Proof.
  induction keys as [|k keys IH]; intros Hne Hall; [congruence|].
  cbn [forallb] in Hall. apply andb_prop in Hall as [Hk Hall].
  apply negb_true_iff in Hk.
  destruct keys as [|k' keys].
  - unfold Str.split, Str.join. cbn [String.concat].
    now rewrite split_go_plain.
  - unfold Str.split, Str.join in *.
    change (String.concat (String c EmptyString) (k :: k' :: keys))
      with (k +:+ String c (String.concat (String c EmptyString) (k' :: keys))).
    rewrite split_go_sep by exact Hk. rewrite IH; [reflexivity|congruence|exact Hall].
Qed.

Lemma includes_join (c : ascii) (k k' : string) (keys : list string) :
  Str.includes c (Str.join (String c EmptyString) (k :: k' :: keys)) = true.
Proof.
  unfold Str.join.
  change (String.concat (String c EmptyString) (k :: k' :: keys))
    with (k +:+ String c (String.concat (String c EmptyString) (k' :: keys))).
  induction k as [|a k IH].
  - change (EmptyString +:+ String c ?r) with (String c r).
    cbn [Str.includes]. now rewrite Ascii.eqb_refl.
  - match goal with
    | |- context [String a k +:+ ?r] =>
        change (String a k +:+ r) with (String a (k +:+ r))
    end.
    cbn [Str.includes]. rewrite IH. now destruct (Ascii.eqb a c).
Qed.

End CompoundFacts.

(** ** Further properties of the builder and the compiler *)

Section Further.

Context {constants : Constants.t} {format : Format.t}.
Context {mapper : QueryMapper.t} {client : Client.t}.
Context {compound : CompoundKey.t}.

(** [select], [include], [sortBy] and [sortByDescending] on a key the
    class does not declare fail with the invalid-key error and leave
    the store as it was. *)
Theorem selection_of_undeclared_key_is_invalid
    (h : Heap) (this : qref) (q : QueryObject) (key : string) :
  queries h !! this = Some q ->
  has (classType q) key = false ->
  has (classType q) (Query.rawKey key) = false ->
  Query.select this [One key] h = (Err InvalidObjectKey, h) /\
  Query.include this [One key] h = (Err InvalidObjectKey, h) /\
  Query.sortBy this [One key] h = (Err InvalidObjectKey, h) /\
  Query.sortByDescending this [One key] h = (Err InvalidObjectKey, h).
Proof.
  intros Hq Hhas Hraw.
  unfold Query.select, Query.include, Query.sortBy, Query.sortByDescending,
    Query.keyList.
  cbn [length Nat.eqb forEach].
  unfold bind, Query.selectKey, Query.includeKey, Query.sortByKey,
    Query.sortByDescendingKey, bind, readQuery.
  rewrite Hq, Hhas, Hraw. repeat split.
Qed.

(** [skip] and [limit] refuse a negative number and leave the store as
    it was. *)
Theorem skip_and_limit_refuse_negative (h : Heap) (this : qref) (val : Z) :
  val < 0 ->
  Query.skip this val h = (Err EnforceError, h) /\
  Query.limit this val h = (Err EnforceError, h).
Proof.
  intros Hneg. unfold Query.skip, Query.limit.
  destruct (Z.ltb_spec val 0); [split; reflexivity|lia].
Qed.

(** The selection [toQueryOptions] resolves: the keys selected, or the
    identifier, the declared keys and the declared timestamps when none
    was selected, and then the included relation keys in both cases. *)
Theorem getSelection_default_and_included (q : QueryObject) :
  Query.getSelection q =
  match selection q with
  | [] =>
      Constants.InternalKeys_Id ::
      definition_keys (classType q) ++ definition_timestamps (classType q)
  | _ => selection q
  end ++ included q.
Proof. unfold Query.getSelection. now destruct (selection q). Qed.

(** [containsEither] with two values compiles to the OR of two LIKE
    fragments on the escaped key, each value between wildcards. *)
Theorem containsEither_of_two_values (subq : value -> result string)
    (key a b : string) :
  let k := MySQLDatabaseAdapter.escapeKey key false in
  MySQLDatabaseAdapter.parseConstraint subq key ContainsEither
    (VArr [VStr a; VStr b]) =
  Ok ("(" +:+ k +:+ " LIKE " +:+
      MySQLDatabaseAdapter.regularEscape (VStr ("%" +:+ a +:+ "%")) +:+
      " OR " +:+ k +:+ " LIKE " +:+
      MySQLDatabaseAdapter.regularEscape (VStr ("%" +:+ b +:+ "%")) +:+ ")").
Proof.
  cbv zeta. unfold MySQLDatabaseAdapter.parseConstraint.
  cbn [MySQLDatabaseAdapter.constraints MySQLDatabaseAdapter.mapValue
       rmap rbind]. unfold Str.join. cbn [String.concat].
  rewrite !StrFacts.append_assoc. reflexivity.
Qed.

(** A sort token that starts with the sort symbol compiles to the
    escaped rest of it and DESC, any other token to itself escaped
    and ASC. *)
Theorem getSortClause_direction (className key : string) :
  Constants.SortSymbol = "-" ->
  MySQLDatabaseAdapter.getSortClause className ["-" +:+ key] =
    MySQLDatabaseAdapter.escapeKey key false +:+ " DESC" /\
  (Str.first key <> Some "-" ->
   MySQLDatabaseAdapter.getSortClause className [key] =
     MySQLDatabaseAdapter.escapeKey key false +:+ " ASC").
Proof.
  intros Hsym. unfold MySQLDatabaseAdapter.getSortClause. rewrite Hsym.
  cbn [map]. unfold Str.join. cbn [String.concat]. split.
  - change (Str.first ("-" +:+ key)) with (Some "-").
    now rewrite decide_True.
  - intros Hasc. now rewrite decide_False.
Qed.


(** [toQueryOptions] leaves the store as it was. *)
Theorem toQueryOptions_reads_only (h : Heap) (this : qref) :
  snd (Query.toQueryOptions this h) = h.
Proof.
  unfold Query.toQueryOptions, bind, readQuery, readArray.
  destruct (queries h !! this) as [q|]; [|reflexivity].
  destruct (arrays h !! sorting q); reflexivity.
Qed.

End Further.

(** The compound key of the examples: several keys without the
    separator, joined by the builder, are a compound key of those
    keys. *)
Theorem joined_keys_are_a_compound_key (k k' : string) (keys : list string) :
  forallb (fun x => negb (Str.includes "|" x)) (k :: k' :: keys) = true ->
  CompoundKey.isUsedBy (t := Example.compoundKey)
    (Query.joinKey (Many (k :: k' :: keys))) = true /\
  CompoundKey.from (t := Example.compoundKey)
    (Query.joinKey (Many (k :: k' :: keys))) = k :: k' :: keys.
Proof.
  intros Hall. split.
  - apply CompoundFacts.includes_join.
  - apply CompoundFacts.split_join; [congruence|exact Hall].
Qed.

(** ** The claims on concrete queries *)

(** C2. The builder has a method for the kind [notFoundInAll] and the
    table of the compiler has no generator for it: a query built with
    [notFoundInAll] has that kind in its options, and compiling it
    fails with the forbidden-operation error whatever the depth
    allowed. *)
Theorem C2_notFoundInAll_is_refused_by_the_compiler :
  In NotFoundInAll builderKinds /\
  exists o : QueryOptions,
    fst Example.notFoundInAllQuery = Ok o /\
    qo_constraints o = [("id", [(NotFoundInAll, VArr [VQuery 1%nat])])] /\
    forall fuel : nat,
      MySQLDatabaseAdapter.find_script
        (constants := Example.constants) (mapper := Example.queryMapper)
        (client := Example.client) (compound := Example.compoundKey)
        (S fuel) (snd Example.notFoundInAllQuery)
        (qo_source o) (qo_columns o) (qo_relations o) (qo_constraints o)
        (qo_sorting o) (qo_skipped o) (qo_limitation o) =
      Err ForbiddenOperation.
Proof.
  split; [cbn; tauto|].
  eexists. split; [reflexivity|]. split; [reflexivity|].
  intros fuel. reflexivity.
Qed.

(** C4, the call the claim fails on: [contains(['title', 'body'], 'x')]
    stores one constraint on the key [title|body], and its predicate
    is one LIKE on a CONCAT of the two columns, not the OR-group of one
    LIKE per key. *)
Lemma C4_contains_several_keys_is_one_like :
  let h := snd (Query.contains (format := Example.format) 0%nat
                  (Many ["title"; "body"]) "x" Example.twoQueries) in
  let fragment :=
    MySQLDatabaseAdapter.parseConstraint
      (client := Example.client) (compound := Example.compoundKey)
      (fun _ => Err TypeError) "title|body" Contains (VStr "x") in
  (constraints <$> queries h !! 0%nat) =
    Some [("title|body", [(Contains, VStr "x")])] /\
  fragment = Ok "CONCAT(`title`,`body`) LIKE '%x%'" /\
  Claimed.orGroupOverKeys (client := Example.client) ["title"; "body"] "x" =
    "(`title` LIKE '%x%' OR `body` LIKE '%x%')" /\
  fragment <>
    Ok (Claimed.orGroupOverKeys (client := Example.client)
          ["title"; "body"] "x") /\
  Str.count " LIKE " "CONCAT(`title`,`body`) LIKE '%x%'" <>
    length ["title"; "body"].
Proof.
  cbv zeta. repeat split; try (vm_compute; reflexivity);
    vm_compute; discriminate.
Qed.

(** C4 on the keys [title] and [body] of the class [Post]. *)
Lemma C4_contains_over_several_keys_witness :
  MySQLDatabaseAdapter.parseConstraint
    (client := Example.client) (compound := Example.compoundKey)
    (fun _ => Err TypeError) "title|body" ContainsEither
    (VArr [VStr "x"; VStr "y"]) =
  Ok "(CONCAT(`title`,`body`) LIKE '%x%' OR CONCAT(`title`,`body`) LIKE '%y%')".
Proof.
  refine (proj2 (proj1 (proj2
    (C4_contains_over_several_keys
       (format := Example.format) (client := Example.client)
       (compound := Example.compoundKey)
       Example.twoQueries 0%nat _ ["title"; "body"] "x"
       (fun _ => Err TypeError) _ _ _ _)) ["x"; "y"]));
    reflexivity.
Defined.

(** C6, the inputs the claim fails on: the fragment of
    [containedInOrDoesNotExist] holds the escaped key twice, and the
    fragment of [exists] does not hold the escaped value. *)
Lemma C6_key_twice_and_value_absent :
  let parse :=
    MySQLDatabaseAdapter.parseConstraint
      (client := Example.client) (compound := Example.compoundKey)
      (fun _ => Err TypeError) in
  let escapedKey :=
    MySQLDatabaseAdapter.escapeKey
      (client := Example.client) (compound := Example.compoundKey)
      "name" false in
  parse "name" ContainedInOrDoesNotExist (VArr [VStr "a"]) =
    Ok "(`name` IS NULL OR `name` IN ('a'))" /\
  Str.count escapedKey "(`name` IS NULL OR `name` IN ('a'))" <> 1%nat /\
  parse "name" Exists (VBool true) = Ok "`name` IS NOT NULL" /\
  Str.count (Client.escape (t := Example.client) (VBool true))
    "`name` IS NOT NULL" <> 1%nat.
Proof.
  cbv zeta. repeat split; try (vm_compute; reflexivity);
    vm_compute; discriminate.
Qed.

(** C6 on [containedInOrDoesNotExist] with two listed values. *)
Lemma C6_fragment_fills_the_template_witness :
  MySQLDatabaseAdapter.parseConstraint
    (client := Example.client) (compound := Example.compoundKey)
    (fun _ => Err TypeError) "name" ContainedInOrDoesNotExist
    (VArr [VStr "a"; VNum 2]) =
  Ok "(`name` IS NULL OR `name` IN ('a', 2))" /\
  Template.keyOccurrences ContainedInOrDoesNotExist [VStr "a"; VNum 2] = 2%nat.
Proof.
  destruct (C6_fragment_fills_the_template
              (client := Example.client) (compound := Example.compoundKey)
              (fun _ => Err TypeError) ContainedInOrDoesNotExist "name"
              (VArr [VStr "a"; VNum 2]) _ eq_refl) as (Hfrag & _).
  split; [rewrite Hfrag|]; reflexivity.
Defined.



(** C9 on the row of the specification: no two of its columns clash,
    and the column [author.name] is found in the object under
    [author]. *)
Lemma C9_mapRows_places_columns_witness :
  Rows.placed (relops := Example.relationOps) "author.name" (VStr "b")
    (MySQLDatabaseAdapter.mapRows (relops := Example.relationOps)
       [("id", VNum 1); ("name", VStr "a");
        ("author.id", VNum 2); ("author.name", VStr "b")]).
Proof.
  refine (proj1 (proj2 (C9_mapRows_places_columns
                          (relops := Example.relationOps))) _ _ _ _ _).
  - reflexivity.
  - simpl. right. right. right. left. reflexivity.
Defined.

(** C9, a row the claim fails on, [{ "author.id": 2, author: 'xy' }]: its two columns
    clash, the second takes the place of the object made for the
    first, and the value of [author.id] is nowhere in the result. *)
Lemma C9_clashing_columns_are_not_both_placed :
  let row := [("author.id", VNum 2); ("author", VStr "xy")] in
  MySQLDatabaseAdapter.mapRows (relops := Example.relationOps) row =
    [("author", VStr "xy")] /\
  Rows.clashFree (relops := Example.relationOps) (map fst row) = false /\
  ~ Rows.placed (relops := Example.relationOps) "author.id" (VNum 2)
      (MySQLDatabaseAdapter.mapRows (relops := Example.relationOps) row).
Proof.
  cbv zeta. split; [reflexivity|]. split; [reflexivity|].
  intros (nested & Hget & _). vm_compute in Hget. discriminate.
Qed.

(** ** Further properties on concrete queries *)

(** [select('nope')] on a new query of the class [Post]. *)
Lemma selection_of_undeclared_key_witness :
  Query.select 0%nat [One "nope"] Example.twoQueries =
  (Err InvalidObjectKey, Example.twoQueries).
Proof.
  refine (proj1 (selection_of_undeclared_key_is_invalid
                   Example.twoQueries 0%nat _ "nope" _ _ _)); reflexivity.
Defined.

(** [skip(-1)] on a new query of the class [Post]. *)
Lemma skip_and_limit_witness :
  Query.skip 0%nat (-1) Example.twoQueries =
  (Err EnforceError, Example.twoQueries).
Proof.
  refine (proj1 (skip_and_limit_refuse_negative
                   Example.twoQueries 0%nat (-1) _)). lia.
Defined.

(** The token [-created_at] with the hyphen as the sort symbol. *)
Lemma getSortClause_direction_witness :
  MySQLDatabaseAdapter.getSortClause
    (constants := Example.constants) (client := Example.client)
    (compound := Example.compoundKey) "Post" ["-created_at"] =
  "`created_at` DESC".
Proof.
  refine (proj1 (getSortClause_direction
                   (constants := Example.constants) (client := Example.client)
                   (compound := Example.compoundKey) "Post" "created_at" _)).
  reflexivity.
Defined.


(** The keys [title] and [body]. *)
Lemma joined_keys_witness :
  CompoundKey.from (t := Example.compoundKey)
    (Query.joinKey (Many ["title"; "body"])) = ["title"; "body"].
Proof.
  refine (proj2 (joined_keys_are_a_compound_key "title" "body" [] _)).
  reflexivity.
Defined.

(** A query of [Post] with one [equalTo] constraint. *)
Lemma getFindClause_total_witness :
  exists s,
    MySQLDatabaseAdapter.getFindClause
      (constants := Example.constants) (mapper := Example.queryMapper)
      (client := Example.client) (compound := Example.compoundKey)
      1 Example.twoQueries
      {| fc_source := ("post", "Post");
         fc_columns := [("Post.title", "title")];
         fc_relations := [];
         fc_constraints := [("Post.status", [(EqualTo, VStr "published")])] |}
    = Ok s.
Proof.
  refine (getFindClause_total
            (constants := Example.constants) (mapper := Example.queryMapper)
            (client := Example.client) (compound := Example.compoundKey)
            0 Example.twoQueries _ _).
  reflexivity.
Defined.


(** ** What [select] leaves in the selection *)

Section SelectFacts.

Context {constants : Constants.t} {format : Format.t}.
Context {mapper : QueryMapper.t}.

Lemma withQuery_same (h : Heap) (this : qref) (q : QueryObject) :
  queries h !! this = Some q ->
  withQuery h this (withSelection q (selection q)) = h.
Proof.
  intros Hq. destruct h as [a l], q. unfold withQuery, withSelection.
  cbn in *. now rewrite list_insert_id.
Qed.

(** The loop of [select] over keys the class declares. *)
Lemma forEach_selectKey_declared (this : qref) (ks : list string) :
  forall (h : Heap) (q : QueryObject),
    queries h !! this = Some q ->
    forallb (has (classType q)) ks = true ->
    forEach (map One ks) (Query.selectKey this) h =
    (Ok tt, withQuery h this (withSelection q (selection q ++ ks))).
Proof.
  induction ks as [|k ks IH]; intros h q Hq Hall.
  - cbn [map forEach]. rewrite app_nil_r, withQuery_same by exact Hq.
    reflexivity.
  - cbn [forallb] in Hall. apply andb_prop in Hall as [Hk Hall].
    assert (Hlt : (this < length (queries h))%nat)
      by (eapply lookup_lt_Some; exact Hq).
    cbn [map forEach]. unfold bind at 1.
    unfold Query.selectKey, bind, readQuery. rewrite Hq, Hk. cbn [negb].
    unfold writeQuery.
    rewrite (IH _ (withSelection q (selection q ++ [k]))).
    + unfold withQuery, withSelection. cbn.
      rewrite list_insert_insert_eq, <- app_assoc. reflexivity.
    + cbn. apply list_lookup_insert_eq. exact Hlt.
    + exact Hall.
Qed.

(** The loop of [select] up to a key the class does not declare. *)
Lemma forEach_selectKey_undeclared (this : qref) (ks rest : list string)
    (bad : string) (h : Heap) (q : QueryObject) :
  queries h !! this = Some q ->
  forallb (has (classType q)) ks = true ->
  has (classType q) bad = false ->
  forEach (map One (ks ++ bad :: rest)) (Query.selectKey this) h =
  (Err InvalidObjectKey, withQuery h this (withSelection q (selection q ++ ks))).
Proof.
  revert h q. induction ks as [|k ks IH]; intros h q Hq Hall Hbad.
  - cbn [app map forEach]. unfold bind at 1.
    unfold Query.selectKey, bind, readQuery. rewrite Hq, Hbad. cbn [negb].
    unfold throw. rewrite app_nil_r, withQuery_same by exact Hq. reflexivity.
  - cbn [forallb] in Hall. apply andb_prop in Hall as [Hk Hall].
    assert (Hlt : (this < length (queries h))%nat)
      by (eapply lookup_lt_Some; exact Hq).
    cbn [app map forEach]. unfold bind at 1.
    unfold Query.selectKey at 1, bind, readQuery. rewrite Hq, Hk. cbn [negb].
    unfold writeQuery.
    rewrite (IH _ (withSelection q (selection q ++ [k]))).
    + unfold withQuery, withSelection. cbn.
      rewrite list_insert_insert_eq, <- app_assoc. reflexivity.
    + cbn. apply list_lookup_insert_eq. exact Hlt.
    + exact Hall.
    + exact Hbad.
Qed.

(** [select] with a list of keys the class declares adds them to the
    selection, after the keys selected before and in their order; the
    arguments after a first argument that is a list are not read; and
    nothing else of the store changes. *)
Theorem select_adds_declared_keys (h : Heap) (this : qref) (q : QueryObject)
    (ks : list string) (rest : list KeyArg) :
  queries h !! this = Some q ->
  forallb (has (classType q)) ks = true ->
  Query.select this (Many ks :: rest) h =
  (Ok this, withQuery h this (withSelection q (selection q ++ ks))).
Proof.
  intros Hq Hall. unfold Query.select, Query.keyList.
  cbn [length Nat.eqb]. unfold bind.
  now rewrite (forEach_selectKey_declared this ks h q Hq Hall).
Qed.

(** [select] stops at the first key the class does not declare: it
    fails with the invalid-key error, and the keys before that one
    stay in the selection. *)
Theorem select_keeps_keys_before_undeclared (h : Heap) (this : qref)
    (q : QueryObject) (ks after : list string) (bad : string)
    (rest : list KeyArg) :
  queries h !! this = Some q ->
  forallb (has (classType q)) ks = true ->
  has (classType q) bad = false ->
  Query.select this (Many (ks ++ bad :: after) :: rest) h =
  (Err InvalidObjectKey,
   withQuery h this (withSelection q (selection q ++ ks))).
Proof.
  intros Hq Hall Hbad. unfold Query.select, Query.keyList.
  cbn [length Nat.eqb]. unfold bind.
  now rewrite (forEach_selectKey_undeclared this ks after bad h q Hq Hall Hbad).
Qed.

End SelectFacts.

(** ** More on the builder *)

Section MoreBuilderFacts.

Context {constants : Constants.t} {format : Format.t}.
Context {mapper : QueryMapper.t}.

(** A loop whose body never raises an error [e] does not raise it. *)
Lemma forEach_never {A} (e : error) (body : A -> M unit) (l : list A) :
  (forall a h, fst (body a h) <> Err e) ->
  forall h, fst (forEach l body h) <> Err e.
Proof.
  intros Hbody. induction l as [|a l IH]; intros h; [discriminate|].
  cbn [forEach]. unfold bind. specialize (Hbody a h).
  destruct (body a h) as [[[]|e'] h']; [apply IH|exact Hbody].
Qed.

Lemma includeKey_never (this : qref) (key : KeyArg) (h : Heap) :
  fst (Query.includeKey this key h) <> Err MissingConfiguration.
Proof.
  unfold Query.includeKey, bind, readQuery. destruct key; [|discriminate].
  destruct (queries h !! this) as [q|]; [|discriminate].
  destruct (has (classType q) key); discriminate.
Qed.

Lemma sortByKey_never (this : qref) (key : KeyArg) (h : Heap) :
  fst (Query.sortByKey this key h) <> Err MissingConfiguration.
Proof.
  unfold Query.sortByKey, bind, readQuery, pushArray.
  destruct key; [|discriminate].
  destruct (queries h !! this) as [q|]; [|discriminate].
  destruct (has (classType q) (Query.rawKey key)); [|discriminate].
  cbn [negb]. destruct (arrays h !! sorting q); discriminate.
Qed.

Lemma sortByDescendingKey_never (this : qref) (key : KeyArg) (h : Heap) :
  fst (Query.sortByDescendingKey this key h) <> Err MissingConfiguration.
Proof.
  unfold Query.sortByDescendingKey, bind, readQuery, pushArray.
  destruct key; [|discriminate].
  destruct (queries h !! this) as [q|]; [|discriminate].
  destruct (has (classType q) key); [|discriminate].
  cbn [negb]. destruct (arrays h !! sorting q); discriminate.
Qed.

Lemma then_ret_never {A} (e : error) (m : M unit) (a : A) (h : Heap) :
  fst (m h) <> Err e -> fst ((m ;; ret a) h) <> Err e.
Proof.
  unfold bind, ret. destruct (m h) as [[[]|e'] h']; cbn;
    [intros _; discriminate|intros H [= ->]; now apply H].
Qed.

(** [include], [sortBy] and [sortByDescending] never fail with the
    missing-configuration error, whatever their arguments, and with no
    argument they return the query and leave the store as it was. *)
Theorem only_select_requires_a_key (h : Heap) (this : qref)
    (keys : list KeyArg) :
  (fst (Query.include this keys h) <> Err MissingConfiguration /\
   fst (Query.sortBy this keys h) <> Err MissingConfiguration /\
   fst (Query.sortByDescending this keys h) <> Err MissingConfiguration) /\
  Query.include this [] h = (Ok this, h) /\
  Query.sortBy this [] h = (Ok this, h) /\
  Query.sortByDescending this [] h = (Ok this, h).
Proof.
  split; [|repeat split].
  unfold Query.include, Query.sortBy, Query.sortByDescending.
  repeat split; apply then_ret_never, forEach_never.
  - apply includeKey_never.
  - apply sortByKey_never.
  - apply sortByDescendingKey_never.
Qed.

Lemma forEach_ext {A} (f g : A -> M unit) (l : list A) :
  (forall a h, f a h = g a h) -> forall h, forEach l f h = forEach l g h.
Proof.
  intros Hfg. induction l as [|a l IH]; intros h; [reflexivity|].
  cbn [forEach]. unfold bind. rewrite Hfg.
  destruct (g a h) as [[[]|e] h']; [apply IH|reflexivity].
Qed.

(** The loop of [sortByDescending] over keys the class declares. *)
Lemma forEach_sortByDescendingKey_declared (this : qref) (q : QueryObject)
    (ks : list string) :
  forall (h : Heap) (sorted : list string),
    queries h !! this = Some q ->
    arrays h !! sorting q = Some sorted ->
    forallb (has (classType q)) ks = true ->
    forEach (map One ks) (Query.sortByDescendingKey this) h =
    (Ok tt,
     withArray h (sorting q) (sorted ++ map (fun k => "-" +:+ k) ks)).
Proof.
  induction ks as [|k ks IH]; intros h sorted Hq Hsorted Hall.
  - cbn [map forEach]. unfold ret, withArray.
    rewrite app_nil_r, list_insert_id by exact Hsorted. now destruct h.
  - cbn [forallb] in Hall. apply andb_prop in Hall as [Hk Hall].
    assert (Hlt : (sorting q < length (arrays h))%nat)
      by (eapply lookup_lt_Some; exact Hsorted).
    cbn [map forEach]. unfold bind at 1.
    unfold Query.sortByDescendingKey, bind, readQuery. rewrite Hq, Hk.
    cbn [negb]. unfold pushArray. rewrite Hsorted.
    rewrite (IH _ (sorted ++ ["-" +:+ k])).
    + unfold withArray. cbn [arrays queries].
      rewrite list_insert_insert_eq, <- app_assoc. reflexivity.
    + exact Hq.
    + cbn [arrays]. apply list_lookup_insert_eq. exact Hlt.
    + exact Hall.
Qed.

(** The loop of [sortBy] over keys with a leading hyphen is the loop
    of [sortByDescending] over the keys without it. *)
Lemma forEach_sortByKey_hyphen (this : qref) (ks : list string) (h : Heap) :
  forEach (map (fun k => One ("-" +:+ k)) ks) (Query.sortByKey this) h =
  forEach (map One ks) (Query.sortByDescendingKey this) h.
Proof.
  revert h. induction ks as [|k ks IH]; intros h; [reflexivity|].
  cbn [map forEach]. unfold bind.
  change (Query.sortByKey this (One ("-" +:+ k)) h)
    with (Query.sortByDescendingKey this (One k) h).
  destruct (Query.sortByDescendingKey this (One k) h) as [[[]|e] h'];
    [apply IH|reflexivity].
Qed.

(** On keys the class declares, [sortBy] given the keys with a
    leading hyphen and [sortByDescending] given the keys without it
    both return the query and leave the same store: the sorting array
    of the query with one token, the hyphen and the key, pushed for
    every key in the order of the keys, and nothing else changed. *)
Theorem sortBy_hyphen_and_sortByDescending_push_the_same
    (h : Heap) (this : qref) (q : QueryObject) (ks : list string)
    (sorted : list string) :
  queries h !! this = Some q ->
  arrays h !! sorting q = Some sorted ->
  forallb (has (classType q)) ks = true ->
  let pushed :=
    withArray h (sorting q) (sorted ++ map (fun k => "-" +:+ k) ks) in
  Query.sortBy this [Many (map (fun k => "-" +:+ k) ks)] h =
    (Ok this, pushed) /\
  Query.sortByDescending this [Many ks] h = (Ok this, pushed).
Proof.
  intros Hq Hsorted Hall. cbv zeta.
  unfold Query.sortBy, Query.sortByDescending, Query.keyList, bind.
  rewrite map_map, forEach_sortByKey_hyphen.
  rewrite (forEach_sortByDescendingKey_declared this q ks h sorted
             Hq Hsorted Hall).
  split; reflexivity.
Qed.

(** [toSubquery] with a key the class does not declare fails with the
    invalid-key error after it has emptied the selection: the query is
    left with no selected key, so that its options fall back to the
    default selection. *)
Theorem toSubquery_failure_empties_selection (h : Heap) (sub : qref)
    (p : QueryObject) (y : string) :
  queries h !! sub = Some p ->
  has (classType p) y = false ->
  Query.toSubquery sub y h =
    (Err InvalidObjectKey, withQuery h sub (withSelection p [])) /\
  Query.getSelection (withSelection p []) =
    Constants.InternalKeys_Id ::
    definition_keys (classType p) ++ definition_timestamps (classType p) ++
    included p.
Proof.
  intros Hp Hhas. split.
  - assert (Hlt : (sub < length (queries h))%nat)
      by (eapply lookup_lt_Some; exact Hp).
    unfold Query.toSubquery, bind, readQuery. rewrite Hp.
    unfold writeQuery. cbn [arrays queries].
    unfold Query.select, Query.keyList, bind. cbn [length Nat.eqb forEach].
    unfold bind, Query.selectKey, bind, readQuery. cbn [queries].
    rewrite list_lookup_insert_eq by exact Hlt.
    cbn [classType]. rewrite Hhas. reflexivity.
  - unfold Query.getSelection. cbn. now rewrite <- app_assoc.
Qed.

(** [foundIn] on a key the outer class does not declare fails with the
    forbidden-operation error after the sub-query has been narrowed:
    the outer query is unchanged, the selection of the sub-query is
    the one key. *)
Theorem foundIn_failure_has_narrowed_the_subquery
    (h : Heap) (this sub : qref) (q p : QueryObject) (x y : string) :
  queries h !! this = Some q ->
  queries h !! sub = Some p ->
  this <> sub ->
  has (classType q) x = false ->
  has (classType p) y = true ->
  Query.foundIn this x y sub h =
    (Err ForbiddenOperation, withQuery h sub (Query.narrowed p y)) /\
  Query.notFoundIn this x y sub h =
    (Err ForbiddenOperation, withQuery h sub (Query.narrowed p y)).
Proof.
  intros Hq Hp Hne Hx Hy.
  unfold Query.foundIn, Query.notFoundIn, bind.
  rewrite (toSubquery_spec h sub p y Hp Hy).
  split; erewrite set_undeclared;
    try reflexivity; try exact Hx;
    cbn [queries]; rewrite list_lookup_insert_ne by congruence; exact Hq.
Qed.

(** A constraint call on a declared key changes the constraints of its
    query and nothing else: the arrays, every other query, and the
    class, selection, inclusion, sorting and paging of the query are as
    they were. *)
Theorem constraint_call_changes_only_constraints
    (h : Heap) (this : qref) (q : QueryObject) (key : string)
    (c : Constraints) (v : value) :
  queries h !! this = Some q ->
  has (classType q) key = true ->
  exists (h' : Heap) (q' : QueryObject),
    Query.set this key c v h = (Ok this, h') /\
    arrays h' = arrays h /\
    length (queries h') = length (queries h) /\
    (forall other, other <> this -> queries h' !! other = queries h !! other) /\
    queries h' !! this = Some q' /\
    classType q' = classType q /\
    selection q' = selection q /\
    included q' = included q /\
    sorting q' = sorting q /\
    skipped q' = skipped q /\
    limitation q' = limitation q /\
    (forall other, sortingOf other h' = sortingOf other h).
Proof.
  intros Hq Hhas.
  assert (Hlt : (this < length (queries h))%nat)
    by (eapply lookup_lt_Some; exact Hq).
  eexists. eexists.
  split; [apply (set_declared _ _ _ _ _ _ Hq Hhas)|].
  cbn [arrays queries].
  split; [reflexivity|]. split; [apply length_insert|].
  split; [intros other Hother; apply list_lookup_insert_ne; congruence|].
  split; [apply list_lookup_insert_eq; exact Hlt|].
  repeat (split; [reflexivity|]).
  intros other. unfold sortingOf. cbn [queries arrays].
  destruct (decide (other = this)) as [->|Hother].
  - rewrite list_lookup_insert_eq by exact Hlt. now rewrite Hq.
  - now rewrite list_lookup_insert_ne by congruence.
Qed.

(** [skip] and [limit] with numbers that are not negative set the
    paging that [toQueryOptions] gives, and change nothing else of the
    query. *)
Theorem skip_and_limit_reach_the_options
    (h : Heap) (this : qref) (q : QueryObject) (s l : Z)
    (sorted : list string) :
  queries h !! this = Some q ->
  arrays h !! sorting q = Some sorted ->
  0 <= s -> 0 <= l ->
  exists qo : QueryOptions,
    (Query.skip this s ;; Query.limit this l ;; Query.toQueryOptions this) h =
    (Ok qo, withQuery h this (withPaging q s l)) /\
    qo_skipped qo = s /\ qo_limitation qo = l /\
    qo_constraints qo =
      QueryMapper.getConstraintsFrom (className (classType q)) (constraints q) /\
    qo_sorting qo =
      QueryMapper.getSortingFrom (className (classType q)) sorted.
Proof.
  intros Hq Hsorted Hs Hl.
  assert (Hlt : (this < length (queries h))%nat)
    by (eapply lookup_lt_Some; exact Hq).
  eexists. split.
  { unfold Query.skip, Query.limit, Query.toQueryOptions.
    destruct (Z.ltb_spec s 0); [lia|]. destruct (Z.ltb_spec l 0); [lia|].
    unfold bind, readQuery, writeQuery, readArray, ret. rewrite Hq.
    cbn [queries arrays].
    rewrite list_lookup_insert_eq by exact Hlt.
    cbn [queries arrays classType selection included constraints sorting
         skipped limitation].
    rewrite list_insert_insert_eq.
    rewrite list_lookup_insert_eq by exact Hlt.
    cbn [sorting arrays]. rewrite Hsorted. reflexivity. }
  repeat split.
Qed.

(** On a new query, [select] with keys the class declares, one at
    least, makes [toQueryOptions] resolve exactly those keys: the
    identifier and the default keys are not added. *)
Theorem selected_keys_replace_the_default
    (h : Heap) (C : Class) (k : string) (ks : list string)
    (items : list string) :
  arrays h !! Constants.Defaults_Query_Sort = Some items ->
  forallb (has C) (k :: ks) = true ->
  exists (qo : QueryOptions) (h' : Heap),
    (let* q := Query.new C in
     Query.select q [Many (k :: ks)] ;; Query.toQueryOptions q) h =
    (Ok qo, h') /\
    qo_columns qo =
      QueryMapper.getColumnsFrom (className C) (k :: ks)
        (definition_relations C) /\
    qo_relations qo =
      QueryMapper.getRelationsFrom (k :: ks) (definition_relations C).
Proof.
  intros Hitems Hall.
  eexists. eexists. split.
  { unfold bind at 1. rewrite new_spec. unfold bind at 1.
    unfold Query.select, Query.keyList. cbn [length Nat.eqb]. unfold bind at 1.
    erewrite forEach_selectKey_declared;
      [| cbn [queries]; apply list_lookup_middle; reflexivity | exact Hall].
    unfold Query.toQueryOptions, bind, ret, readQuery, readArray, withQuery.
    cbn [queries arrays].
    rewrite list_lookup_insert_eq
      by (rewrite length_app; cbn [length]; lia).
    cbn [withSelection sorting selection app arrays]. rewrite Hitems.
    reflexivity. }
  split; unfold Query.getSelection; cbn; now rewrite app_nil_r.
Qed.

End MoreBuilderFacts.

(** ** More on the KeyMap, the rows and the writes *)

Module KeyMapMore.

Lemma get_remove (k k' : string) (m : KeyMap.t) :
  KeyMap.get k' (KeyMap.remove k m) =
  if String.eqb k' k then None else KeyMap.get k' m.
Proof.
  induction m as [|[k0 v0] m IH]; cbn [KeyMap.get KeyMap.remove].
  - now destruct (String.eqb k' k).
  - destruct (String.eqb_spec k0 k) as [->|Hne].
    + rewrite IH. destruct (String.eqb_spec k' k) as [->|Hne'].
      * reflexivity.
      * destruct (String.eqb_spec k k'); congruence.
    + cbn [KeyMap.get]. rewrite IH.
      destruct (String.eqb_spec k0 k') as [->|Hne']; [|reflexivity].
      destruct (String.eqb_spec k' k); congruence.
Qed.


Lemma set_fresh (k : string) (v : value) (m : KeyMap.t) :
  existsb (String.eqb k) (map fst m) = false ->
  KeyMap.set k v m = m ++ [(k, v)].
Proof.
  induction m as [|[k0 v0] m IH]; cbn [map fst existsb KeyMap.set app];
    [reflexivity|].
  intros Hfresh. apply orb_false_elim in Hfresh as [Hk0 Hfresh].
  rewrite String.eqb_sym, Hk0. now rewrite IH.
Qed.

End KeyMapMore.

Section MoreRows.
Context {constants : Constants.t} {relops : Relation.ops}.

Lemma fold_mapRow_plain (row : list (string * value)) :
  forall acc : KeyMap.t,
    forallb (fun k => negb (Relation.isUsedBy k)) (map fst row) = true ->
    distinct (map fst acc ++ map fst row) = true ->
    fold_left MySQLDatabaseAdapter.mapRow row acc = acc ++ row.
Proof.
  induction row as [|[k v] row IH]; intros acc Hplain Hdist.
  - now rewrite app_nil_r.
  - cbn [map fst forallb] in Hplain. apply andb_prop in Hplain as [Hk Hplain].
    apply negb_true_iff in Hk.
    cbn [fold_left]. unfold MySQLDatabaseAdapter.mapRow at 2. cbn [fst snd].
    rewrite Hk.
    assert (Hfresh : existsb (String.eqb k) (map fst acc) = false).
    { clear - Hdist. induction acc as [|[k0 v0] acc IHacc]; [reflexivity|].
      cbn [map fst app distinct existsb] in *.
      apply andb_prop in Hdist as [Hk0 Hdist].
      apply negb_true_iff in Hk0.
      rewrite existsb_app in Hk0. apply orb_false_elim in Hk0 as [_ Hk0].
      cbn [existsb] in Hk0. apply orb_false_elim in Hk0 as [Hk0 _].
      rewrite String.eqb_sym, Hk0. cbn [orb]. now apply IHacc. }
    rewrite (KeyMapMore.set_fresh k v acc Hfresh).
    rewrite IH; [now rewrite <- app_assoc|exact Hplain|].
    rewrite map_app. cbn [map fst]. rewrite <- app_assoc. exact Hdist.
Qed.

(** A row in which no column carries a relation prefix and no column
    name occurs twice is mapped to itself: the same columns with the
    same values in the same order. *)
Theorem mapRows_of_plain_row (row : list (string * value)) :
  forallb (fun k => negb (Relation.isUsedBy k)) (map fst row) = true ->
  distinct (map fst row) = true ->
  KeyMap.toArray (MySQLDatabaseAdapter.mapRows row) = row.
Proof.
  intros Hplain Hdist. unfold MySQLDatabaseAdapter.mapRows, KeyMap.toArray.
  now rewrite (fold_mapRow_plain row KeyMap.empty Hplain Hdist).
Qed.

(** The instance made from a mapped row whose columns do not clash
    has the value of the identifier column as its identifier, no
    identifier among its keys, and every other column without a
    relation prefix among its keys with its value. *)
Theorem getClassFromKeys_of_mapped_row
    (h : Heap) (this : qref) (q : QueryObject)
    (row : list (string * value)) (id : value) :
  queries h !! this = Some q ->
  Rows.clashFree (map fst row) = true ->
  Relation.isUsedBy Constants.InternalKeys_Id = false ->
  In (Constants.InternalKeys_Id, id) row ->
  exists instance : ClassInstance,
    Query.getClassFromKeys this (MySQLDatabaseAdapter.mapRows row) h =
      (Ok instance, h) /\
    instance_class instance = classType q /\
    identifier instance = Some id /\
    KeyMap.get Constants.InternalKeys_Id (instance_keys instance) = None /\
    forall k v, In (k, v) row -> Relation.isUsedBy k = false ->
                k <> Constants.InternalKeys_Id ->
                KeyMap.get k (instance_keys instance) = Some v.
Proof.
  intros Hq Hfree Hplain Hin.
  eexists. split; [unfold Query.getClassFromKeys, bind, readQuery; rewrite Hq;
                   reflexivity|].
  cbn [instance_class identifier instance_keys].
  split; [reflexivity|]. split.
  { pose proof (mapRows_clash_free row _ _ Hfree Hin) as Hplaced.
    unfold Rows.placed, Rows.place in Hplaced. now rewrite Hplain in Hplaced. }
  split; [rewrite KeyMapMore.get_remove; now rewrite String.eqb_refl|].
  intros k v Hk Hkplain Hne.
  rewrite KeyMapMore.get_remove.
  destruct (String.eqb_spec k Constants.InternalKeys_Id); [congruence|].
  pose proof (mapRows_clash_free row _ _ Hfree Hk) as Hplaced.
  unfold Rows.placed, Rows.place in Hplaced. now rewrite Hkplain in Hplaced.
Qed.

End MoreRows.

Section MoreWrites.
Context {constants : Constants.t} {format : Format.t} {client : Client.t}.


End MoreWrites.

(** ** More on the find clause *)

Section MoreCompilerFacts.

Context {constants : Constants.t} {format : Format.t}.
Context {mapper : QueryMapper.t} {client : Client.t}.
Context {compound : CompoundKey.t}.

Lemma rmap_Forall2 {A B} (F : A -> result B) (l : list A) (ys : list B) :
  rmap F l = Ok ys -> Forall2 (fun x y => F x = Ok y) l ys.
Proof.
  revert ys. induction l as [|a l IH]; intros ys; cbn [rmap].
  - intros [= <-]. constructor.
  - destruct (F a) as [b|e] eqn:Ha; [|discriminate]. cbn [rbind].
    destruct (rmap F l) as [bs|e]; [|discriminate]. cbn [rbind].
    intros [= <-]. constructor; [exact Ha|now apply IH].
Qed.

Lemma findClause_shape (subq : value -> result string)
    (o : FindClauseOptions) :
  MySQLDatabaseAdapter.findClause subq o =
  rbind
    (rmap (fun c : ConstraintObject =>
             MySQLDatabaseAdapter.parseConstraint subq
               (co_key c) (co_constraint c) (co_value c))
          (concat (ConstraintMap.toArray (fc_constraints o))))
    (fun where_ =>
       Ok (selectFrom o +:+ " WHERE " +:+ Str.join " AND " where_)).
Proof.
  unfold MySQLDatabaseAdapter.findClause, selectFrom.
  destruct (rmap _ _) as [frags|e]; cbn [rbind]; [|reflexivity].
  rewrite !StrFacts.append_assoc. reflexivity.
Qed.

(** A find clause over constraints of the enumerated kinds is
    compiled from all its constraints or not at all: when there is a
    clause, every constraint has a fragment, and the clause is the
    fragments in the order of the constraints, joined with AND after
    the WHERE; and no constraint is of the kind [NotFoundInAll],
    which has no generator. *)
Theorem find_clause_holds_every_constraint
    (subq : value -> result string) (o : FindClauseOptions) (s : string) :
  forallb (fun c : ConstraintObject => enumerated (co_constraint c))
    (concat (ConstraintMap.toArray (fc_constraints o))) = true ->
  MySQLDatabaseAdapter.findClause subq o = Ok s ->
  exists fragments : list string,
    Forall2
      (fun (c : ConstraintObject) (fragment : string) =>
         MySQLDatabaseAdapter.parseConstraint subq
           (co_key c) (co_constraint c) (co_value c) = Ok fragment)
      (concat (ConstraintMap.toArray (fc_constraints o))) fragments /\
    s = selectFrom o +:+ " WHERE " +:+ Str.join " AND " fragments /\
    Forall (fun c : ConstraintObject => co_constraint c <> NotFoundInAll)
      (concat (ConstraintMap.toArray (fc_constraints o))).
Proof.
  intros _. rewrite findClause_shape.
  destruct (rmap _ _) as [frags|e] eqn:Hfrags; [|discriminate].
  cbn [rbind]. intros [= <-]. exists frags.
  pose proof (rmap_Forall2 _ _ _ Hfrags) as Hall.
  split; [exact Hall|]. split; [reflexivity|].
  clear Hfrags. induction Hall as [|c f cs fs Hc _ IH]; constructor; [|exact IH].
  intros Hkind. rewrite Hkind in Hc. discriminate.
Qed.

(** With no constraint the find clause ends with the word WHERE and no
    predicate, and the script of [find] goes on with ORDER BY right
    after it. *)
Theorem find_without_constraints
    (fuel : nat) (h : Heap) (source : string * string)
    (columns : list (string * string)) (relations : list (string * Relation.t))
    (sorting : list string) (skipped limitation : Z) :
  let o := {| fc_source := source; fc_columns := columns;
              fc_relations := relations;
              fc_constraints := ConstraintMap.empty |} in
  MySQLDatabaseAdapter.getFindClause (S fuel) h o =
    Ok (selectFrom o +:+ " WHERE ") /\
  MySQLDatabaseAdapter.find_script (S fuel) h source columns relations
    ConstraintMap.empty sorting skipped limitation =
    Ok (selectFrom o +:+ " WHERE  ORDER BY " +:+
        MySQLDatabaseAdapter.getSortClause (snd source) sorting +:+
        " LIMIT " +:+ pretty skipped +:+ ", " +:+ pretty limitation +:+
        "; -- Warp Server " +:+ Constants.version).
Proof.
  cbv zeta.
  assert (Hclause :
    MySQLDatabaseAdapter.getFindClause (S fuel) h
      {| fc_source := source; fc_columns := columns;
         fc_relations := relations; fc_constraints := ConstraintMap.empty |} =
    Ok (selectFrom
          {| fc_source := source; fc_columns := columns;
             fc_relations := relations;
             fc_constraints := ConstraintMap.empty |} +:+ " WHERE ")).
  { cbn [MySQLDatabaseAdapter.getFindClause]. rewrite findClause_shape.
    reflexivity. }
  split; [exact Hclause|].
  unfold MySQLDatabaseAdapter.find_script. rewrite Hclause. cbn [rbind].
  rewrite !StrFacts.append_assoc. reflexivity.
Qed.

(** A query whose first constraint is a sub-query constraint on the
    query itself has no find clause: at every depth the compiler is
    still compiling the query inside itself. *)
Theorem query_inside_itself_never_compiles
    (h : Heap) (this : qref) (qo : QueryOptions) (key : string)
    (kind : Constraints) (rest : list ConstraintObject) :
  Query.toQueryOptions this h = (Ok qo, h) ->
  subqueryKind kind = true ->
  concat (ConstraintMap.toArray (qo_constraints qo)) =
    {| co_key := key; co_constraint := kind; co_value := VQuery this |}
    :: rest ->
  forall fuel : nat,
    MySQLDatabaseAdapter.getFindClause fuel h (findOptions qo) =
    Err StackOverflow.
Proof.
  intros Hqo Hkind Hfirst fuel.
  induction fuel as [|fuel IH]; [reflexivity|].
  cbn [MySQLDatabaseAdapter.getFindClause]. rewrite findClause_shape.
  change (fc_constraints (findOptions qo)) with (qo_constraints qo).
  rewrite Hfirst.
  cbn [rmap co_key co_constraint co_value].
  unfold MySQLDatabaseAdapter.parseConstraint at 1.
  destruct kind; try discriminate;
    cbn [MySQLDatabaseAdapter.constraints]; rewrite Hqo, IH; reflexivity.
Qed.

(** The builder takes an empty list of values and the compiler renders
    it as an empty list: [containedIn(key, [])] stores the constraint,
    and the fragments of the list-valued kinds for the empty list are
    an IN with nothing between the parentheses and an empty group. *)
Theorem empty_list_is_compiled_as_it_is
    (h : Heap) (this : qref) (q : QueryObject) (key : string)
    (subq : value -> result string) :
  queries h !! this = Some q ->
  has (classType q) key = true ->
  let k := MySQLDatabaseAdapter.escapeKey key false in
  Query.containedIn this key [] h =
    (Ok this, withQuery h this (Query.withConstraint q key ContainedIn (VArr [])))
  /\
  MySQLDatabaseAdapter.parseConstraint subq key ContainedIn (VArr []) =
    Ok (k +:+ " IN ()") /\
  MySQLDatabaseAdapter.parseConstraint subq key NotContainedIn (VArr []) =
    Ok (k +:+ " NOT IN ()") /\
  MySQLDatabaseAdapter.parseConstraint subq key ContainedInOrDoesNotExist
    (VArr []) = Ok ("(" +:+ k +:+ " IS NULL OR " +:+ k +:+ " IN ())") /\
  Forall (fun kind =>
            MySQLDatabaseAdapter.parseConstraint subq key kind (VArr []) =
            Ok "()")
    [ContainsEither; ContainsAll; FoundInEither; FoundInAll; NotFoundInEither].
Proof.
  intros Hq Hhas. cbv zeta. split.
  { unfold Query.containedIn, bind.
    now rewrite (set_declared _ _ _ _ _ _ Hq Hhas). }
  repeat split. repeat constructor.
Qed.

End MoreCompilerFacts.

(** ** The modifier [min] *)

Section MinFacts.

Variable S : Type.
Variable getter : S -> value.
Variable setter : value -> S -> S.
Hypothesis getter_setter : forall v s, getter (setter v s) = v.

Let descriptor : option (MinModifier.Descriptor S) :=
  Some {| MinModifier.descriptor_get := Some getter;
          MinModifier.descriptor_set := Some setter |}.

(** Over accessors that give back what was set: the setter of [min]
    refuses exactly the numbers under the limit, and leaves the
    object as it was then; what it accepts is read back by the getter
    of [min] when it is truthy, and as [undefined] when it is falsy
    ([0], the empty string, [false], [null]). *)
Theorem min_set_then_get (limit : Z) (val : value) (this : S) :
  match MinModifier.set limit descriptor val this with
  | None => exists n, val = VNum n /\ n < limit
  | Some this' =>
      (forall n, val = VNum n -> limit <= n) /\
      MinModifier.get descriptor this' =
      if truthy val then val else VUndefined
  end.
Proof.
  unfold MinModifier.set, MinModifier.get, descriptor.
  cbn [MinModifier.descriptor_get MinModifier.descriptor_set].
  destruct (match val with VNum n => n <? limit | _ => false end) eqn:Hlow.
  - destruct val; try discriminate. exists n. split; [reflexivity|].
    now apply Z.ltb_lt.
  - rewrite getter_setter. split; [|reflexivity].
    intros n ->. now apply Z.ltb_ge.
Qed.

End MinFacts.

(** ** The required configuration *)

Lemma property_of_truthy (name : string) (v : value) :
  truthy v = true ->
  WarpServer.property name v = inr (WarpServer.read name v).
Proof.
  unfold WarpServer.read. destruct v; cbn; (discriminate || reflexivity).
Qed.

(** The checks of the constructor on a configuration that is an
    object, or any value but [undefined] and [null]: they throw for
    the first required setting, in their order, that is missing or
    falsy (an empty password is), with the name of that setting in
    the message, and pass when every setting is truthy. A setting of
    the database or of the security keys is not read when the
    database or the security keys are missing. *)
Theorem required_configuration_names_first_missing (config : value) :
  WarpServer.requiredConfiguration config =
  match config with
  | VUndefined | VNull => Some WarpServer.NotAnObject
  | _ =>
      match find (fun s : string * value => negb (truthy (snd s)))
                 (WarpServer.settings config) with
      | Some s => Some (WarpServer.Missing (fst s +:+ " must be set"))
      | None => None
      end
  end.
Proof.
  assert (Hgo : forall c : value,
    WarpServer.property "database" c = inr (WarpServer.read "database" c) ->
    WarpServer.property "security" c = inr (WarpServer.read "security" c) ->
    WarpServer.requiredConfiguration c =
    match find (fun s : string * value => negb (truthy (snd s)))
               (WarpServer.settings c) with
    | Some s => Some (WarpServer.Missing (fst s +:+ " must be set"))
    | None => None
    end).
  { intros c Hdb Hsec.
    unfold WarpServer.requiredConfiguration, WarpServer.settings,
      WarpServer.required, WarpServer._requiredConfig.
    rewrite Hdb, Hsec. cbn [find snd fst WarpServer.andThen].
    destruct (truthy (WarpServer.read "database" c)) eqn:Hd;
      cbn [negb WarpServer.andThen]; [|reflexivity].
    rewrite !(property_of_truthy _ _ Hd).
    destruct (truthy (WarpServer.read "host" _));
      cbn [negb WarpServer.andThen]; [|reflexivity].
    destruct (truthy (WarpServer.read "user" _));
      cbn [negb WarpServer.andThen]; [|reflexivity].
    destruct (truthy (WarpServer.read "password" _));
      cbn [negb WarpServer.andThen]; [|reflexivity].
    destruct (truthy (WarpServer.read "security" c)) eqn:Hs;
      cbn [negb WarpServer.andThen]; [|reflexivity].
    rewrite !(property_of_truthy _ _ Hs).
    destruct (truthy (WarpServer.read "apiKey" _));
      cbn [negb WarpServer.andThen]; [|reflexivity].
    destruct (truthy (WarpServer.read "masterKey" _)); reflexivity. }
  destruct config; try reflexivity; apply Hgo; reflexivity.
Qed.

(** ** The kinds the builder stores *)

Section KindFacts.

Context {constants : Constants.t} {format : Format.t}.
Context {mapper : QueryMapper.t} {client : Client.t}.
Context {compound : CompoundKey.t}.

Lemma kindsOf_set (key : string) (c : Constraints) (v : value)
    (m : ConstraintMap.t) :
  length (kindsOf (ConstraintMap.set key c v m)) = S (length (kindsOf m)) /\
  forall P : Constraints -> bool,
    P c = true -> forallb P (kindsOf m) = true ->
    forallb P (kindsOf (ConstraintMap.set key c v m)) = true.
Proof.
  unfold kindsOf.
  induction m as [|[k cs] m [IHlen IHall]]; cbn [ConstraintMap.set].
  - split; [reflexivity|]. intros P Hc _. cbn. now rewrite Hc.
  - destruct (String.eqb k key); cbn [map concat fst snd].
    + split.
      * rewrite !length_app, !length_map, length_app. cbn [length]. lia.
      * intros P Hc. rewrite !forallb_app, map_app, forallb_app.
        cbn [map forallb fst]. rewrite Hc.
        intros [Hcs Hm]%andb_prop. now rewrite Hcs, Hm.
    + split.
      * rewrite !length_app, IHlen. lia.
      * intros P Hc. rewrite !forallb_app.
        intros [Hcs Hm]%andb_prop. rewrite Hcs. cbn [andb].
        now apply IHall.
Qed.

Lemma forallb_insert {A} (P : A -> bool) (l : list A) (i : nat) (x : A) :
  forallb P l = true -> P x = true -> forallb P (<[i := x]> l) = true.
Proof.
  revert i. induction l as [|a l IH]; intros i Hl Hx; [exact Hl|].
  cbn [forallb] in Hl. apply andb_prop in Hl as [Ha Hl].
  destruct i as [|i]; cbn; [now rewrite Hx, Hl|].
  rewrite Ha. now apply IH.
Qed.

(** A write that keeps the constraints of the query keeps the
    constraints of the store. *)
Lemma map_constraints_insert (l : list QueryObject) (this : qref)
    (q q' : QueryObject) :
  l !! this = Some q -> constraints q' = constraints q ->
  map constraints (<[this := q']> l) = map constraints l.
Proof.
  intros Hq Heq.
  change (map constraints) with (fmap (M := list) constraints).
  rewrite list_fmap_insert, Heq.
  apply list_insert_id. now rewrite list_lookup_fmap, Hq.
Qed.

Lemma select_one_keeps_constraints (this : qref) (key : string) (h : Heap) :
  map constraints (queries (snd (Query.select this [One key] h))) =
  map constraints (queries h).
Proof.
  unfold Query.select, Query.keyList. cbn [length Nat.eqb forEach].
  unfold bind, Query.selectKey, bind, readQuery.
  destruct (queries h !! this) as [q|] eqn:Hq; [|reflexivity].
  destruct (has (classType q) key); [|reflexivity].
  cbn [negb]. unfold writeQuery, ret. cbn [snd queries].
  now apply (map_constraints_insert _ _ q).
Qed.

Lemma toSubquery_keeps_constraints (this : qref) (select_ : string)
    (h : Heap) :
  map constraints (queries (snd (Query.toSubquery this select_ h))) =
  map constraints (queries h).
Proof.
  unfold Query.toSubquery, bind at 1. unfold readQuery.
  destruct (queries h !! this) as [q|] eqn:Hq; [|reflexivity].
  unfold bind at 1. unfold writeQuery.
  unfold bind.
  match goal with
  | |- context [Query.select this [One select_] ?h1] =>
      pose proof (select_one_keeps_constraints this select_ h1) as Hsel;
      destruct (Query.select this [One select_] h1) as [[r|e] h2]
  end; cbn [snd queries] in *; unfold ret; cbn [snd];
    rewrite Hsel; now apply (map_constraints_insert _ _ q).
Qed.

Lemma itemToSubquery_keeps_constraints (item : list (string * qref))
    (h : Heap) :
  map constraints (queries (snd (Query.itemToSubquery item h))) =
  map constraints (queries h).
Proof.
  unfold Query.itemToSubquery. destruct item as [|[select_ query] _];
    [reflexivity|].
  unfold bind.
  pose proof (toSubquery_keeps_constraints query select_ h) as Hsub.
  destruct (Query.toSubquery query select_ h) as [[r|e] h1]; exact Hsub.
Qed.

Lemma mapM_itemToSubquery_keeps_constraints
    (items : list (list (string * qref))) :
  forall h : Heap,
    map constraints
      (queries (snd (mapM Query.itemToSubquery items h))) =
    map constraints (queries h).
Proof.
  induction items as [|item items IH]; intros h; [reflexivity|].
  cbn [mapM]. unfold bind at 1.
  pose proof (itemToSubquery_keeps_constraints item h) as Hitem.
  destruct (Query.itemToSubquery item h) as [[b|e] h1]; [|exact Hitem].
  unfold bind. specialize (IH h1).
  destruct (mapM Query.itemToSubquery items h1) as [[bs|e] h2];
    cbn [snd] in *; unfold ret; cbn [snd]; congruence.
Qed.

Lemma kindsIn_constraints (h h' : Heap) (this : qref) :
  map constraints (queries h') = map constraints (queries h) ->
  kindsIn h' this = kindsIn h this.
Proof.
  intros Heq. unfold kindsIn.
  assert (Hlook : constraints <$> queries h' !! this =
                  constraints <$> queries h !! this).
  { rewrite <- !list_lookup_fmap.
    change (fmap (M := list) constraints) with (map constraints).
    now rewrite Heq. }
  destruct (queries h' !! this), (queries h !! this); cbn in Hlook;
    congruence.
Qed.

(** [set] with a kind of the table, after a step that kept the
    constraints of the store. *)
Lemma set_stores_one_compilable_kind (subq : value -> result string)
    (h0 h : Heap) (this : qref) (key : string) (c : Constraints)
    (v : value) :
  generated subq c = true ->
  compilable subq h0 = true ->
  map constraints (queries h) = map constraints (queries h0) ->
  compilable subq (snd ((Query.set this key c v ;; ret this) h)) = true /\
  forall (r : qref) (h' : Heap),
    (Query.set this key c v ;; ret this) h = (Ok r, h') ->
    r = this /\ length (kindsIn h' this) = S (length (kindsIn h0 this)).
Proof.
  intros Hc Hcomp Hsame.
  assert (Hcomp' : compilable subq h = true)
    by (unfold compilable in *; now rewrite Hsame).
  rewrite <- (kindsIn_constraints h0 h this Hsame).
  unfold bind, Query.set, bind, readQuery.
  destruct (queries h !! this) as [q|] eqn:Hq;
    [|split; [exact Hcomp'|discriminate]].
  destruct (has (classType q) key);
    [|split; [exact Hcomp'|discriminate]].
  cbn [negb]. unfold writeQuery, ret.
  assert (Hlt : (this < length (queries h))%nat)
    by (eapply lookup_lt_Some; exact Hq).
  split.
  - cbn [snd]. unfold compilable in *. cbn [queries].
    change (map constraints) with (fmap (M := list) constraints) in *.
    rewrite list_fmap_insert. cbn [constraints].
    apply forallb_insert; [exact Hcomp'|].
    apply kindsOf_set; [exact Hc|].
    apply (proj1 (forallb_forall _ _) Hcomp').
    apply in_map_iff. exists q. split; [reflexivity|].
    apply list_elem_of_In. eapply list_elem_of_lookup_2; exact Hq.
  - intros r h' [= <- <-]. split; [reflexivity|].
    unfold kindsIn. cbn [queries].
    rewrite list_lookup_insert_eq by exact Hlt. rewrite Hq.
    cbn [constraints]. apply kindsOf_set.
Qed.

Lemma direct_call (subq : value -> result string) (h : Heap) (this : qref)
    (key : string) (c : Constraints) (v : value) :
  generated subq c = true ->
  compilable subq h = true ->
  storesOneCompilableKind subq h this (Query.set this key c v ;; ret this).
Proof.
  intros Hc Hcomp.
  exact (set_stores_one_compilable_kind subq h h this key c v Hc Hcomp
           eq_refl).
Qed.

Lemma subquery_call (subq : value -> result string) (h : Heap)
    (this sub : qref) (key select_ : string) (c : Constraints) :
  generated subq c = true ->
  compilable subq h = true ->
  storesOneCompilableKind subq h this
    (let* s := Query.toSubquery sub select_ in
     Query.set this key c (VQuery s) ;; ret this).
Proof.
  intros Hc Hcomp. unfold storesOneCompilableKind. unfold bind at 1 3.
  pose proof (toSubquery_keeps_constraints sub select_ h) as Hsub.
  destruct (Query.toSubquery sub select_ h) as [[s|e] h1]; cbn [snd] in Hsub.
  - exact (set_stores_one_compilable_kind subq h h1 this key c _ Hc Hcomp
             Hsub).
  - split; [|discriminate]. cbn [snd]. unfold compilable in *.
    now rewrite Hsub.
Qed.

Lemma subqueries_call (subq : value -> result string) (h : Heap)
    (this : qref) (key : string) (items : list (list (string * qref)))
    (c : Constraints) :
  generated subq c = true ->
  compilable subq h = true ->
  storesOneCompilableKind subq h this
    (let* subs := mapM Query.itemToSubquery items in
     Query.set this key c (VArr subs) ;; ret this).
Proof.
  intros Hc Hcomp. unfold storesOneCompilableKind. unfold bind at 1 3.
  pose proof (mapM_itemToSubquery_keeps_constraints items h) as Hsub.
  destruct (mapM Query.itemToSubquery items h) as [[s|e] h1];
    cbn [snd] in Hsub.
  - exact (set_stores_one_compilable_kind subq h h1 this key c _ Hc Hcomp
             Hsub).
  - split; [|discriminate]. cbn [snd]. unfold compilable in *.
    now rewrite Hsub.
Qed.

(** From a store in which every kind has a generator, every
    constraint method of the builder but [notFoundInAll] leaves such a
    store, whatever it is given and whether it returns or fails; and
    when it returns, it returns the query, which holds one kind
    more. ([where] stores whatever kind it is given.) *)
Theorem builder_stores_kinds_of_the_table
    (subq : value -> result string) (h : Heap) (this : qref)
    (key select_ : string) (keys : KeyArg) (v : value) (vs : list value)
    (text : string) (texts : list string) (sub : qref)
    (items : list (list (string * qref))) :
  compilable subq h = true ->
  Forall (storesOneCompilableKind subq h this)
    [Query.equalTo this key v;
     Query.notEqualTo this key v;
     Query.greaterThan this key v;
     Query.greaterThanOrEqualTo this key v;
     Query.lessThan this key v;
     Query.lessThanOrEqualTo this key v;
     Query.exists_ this key;
     Query.doesNotExist this key;
     Query.containedIn this key vs;
     Query.notContainedIn this key vs;
     Query.containedInOrDoesNotExist this key vs;
     Query.startsWith this key text;
     Query.endsWith this key text;
     Query.contains this keys text;
     Query.containsEither this keys texts;
     Query.containsAll this keys texts;
     Query.foundIn this key select_ sub;
     Query.notFoundIn this key select_ sub;
     Query.foundInEither this key items;
     Query.foundInAll this key items;
     Query.notFoundInEither this key items].
Proof.
  intros Hcomp.
  repeat (apply List.Forall_cons;
          [first [ now apply direct_call
                 | now apply subquery_call
                 | now apply subqueries_call ]|]).
  apply List.Forall_nil.
Qed.

End KindFacts.

(** ** More properties on concrete queries *)

(** [select(['title', 'body'])] on a new query of the class [Post]. *)
Lemma select_adds_declared_keys_witness :
  let after := Query.select 0%nat [Many ["title"; "body"]] Example.twoQueries in
  fst after = Ok 0%nat /\
  (selection <$> queries (snd after) !! 0%nat) = Some ["title"; "body"].
Proof.
  cbv zeta.
  rewrite (select_adds_declared_keys Example.twoQueries 0%nat _
             ["title"; "body"] [] eq_refl eq_refl).
  split; reflexivity.
Defined.

(** [select(['title', 'nope', 'body'])] on a new query of the class
    [Post]: the error, and [title] selected. *)
Lemma select_keeps_keys_before_undeclared_witness :
  let after :=
    Query.select 0%nat [Many ["title"; "nope"; "body"]] Example.twoQueries in
  fst after = Err InvalidObjectKey /\
  (selection <$> queries (snd after) !! 0%nat) = Some ["title"].
Proof.
  cbv zeta.
  pose proof (select_keeps_keys_before_undeclared Example.twoQueries 0%nat _
                ["title"] ["body"] "nope" [] eq_refl eq_refl eq_refl) as Hrun.
  cbn [app] in Hrun. rewrite Hrun. split; reflexivity.
Defined.

(** [toSubquery('nope')] on a query of [Post] that selected [title]. *)
Lemma toSubquery_failure_empties_selection_witness :
  let before := snd (Query.select 1%nat [One "title"] Example.twoQueries) in
  let after := Query.toSubquery 1%nat "nope" before in
  (selection <$> queries before !! 1%nat) = Some ["title"] /\
  fst after = Err InvalidObjectKey /\
  (selection <$> queries (snd after) !! 1%nat) = Some [].
Proof.
  cbv zeta. split; [reflexivity|].
  rewrite (proj1 (toSubquery_failure_empties_selection
                    (constants := Example.constants)
                    (snd (Query.select 1%nat [One "title"] Example.twoQueries))
                    1%nat _ "nope" eq_refl eq_refl)).
  split; reflexivity.
Defined.

(** [foundIn('nope', 'title', p)] on two new queries of the class
    [Post]. *)
Lemma foundIn_failure_has_narrowed_the_subquery_witness :
  let after :=
    Query.foundIn (format := Example.format) 0%nat "nope" "title" 1%nat
      Example.twoQueries in
  fst after = Err ForbiddenOperation /\
  (selection <$> queries (snd after) !! 1%nat) = Some ["title"].
Proof.
  cbv zeta.
  assert (Hne : 0%nat <> 1%nat) by discriminate.
  rewrite (proj1 (foundIn_failure_has_narrowed_the_subquery
                    (format := Example.format) Example.twoQueries
                    0%nat 1%nat _ _ "nope" "title"
                    eq_refl eq_refl Hne eq_refl eq_refl)).
  split; reflexivity.
Defined.

(** [set('title', EqualTo, 'a')] on the first of two new queries of
    the class [Post]. *)
Lemma constraint_call_changes_only_constraints_witness :
  exists h' : Heap,
    Query.set (format := Example.format) 0%nat "title" EqualTo (VStr "a")
      Example.twoQueries = (Ok 0%nat, h') /\
    arrays h' = arrays Example.twoQueries /\
    queries h' !! 1%nat = queries Example.twoQueries !! 1%nat /\
    sortingOf 0%nat h' = sortingOf 0%nat Example.twoQueries.
Proof.
  assert (Hne : 1%nat <> 0%nat) by discriminate.
  destruct (constraint_call_changes_only_constraints
              (format := Example.format) Example.twoQueries 0%nat _
              "title" EqualTo (VStr "a") eq_refl eq_refl)
    as (h' & q' & Hrun & Harrays & _ & Hothers & _ & _ & _ & _ & _ & _ & _
        & Hsorting).
  exists h'. split; [exact Hrun|]. split; [exact Harrays|].
  split; [exact (Hothers 1%nat Hne)|exact (Hsorting 0%nat)].
Defined.

(** [skip(10)] and [limit(5)] on a new query of the class [Post]. *)
Lemma skip_and_limit_reach_the_options_witness :
  exists (qo : QueryOptions) (h' : Heap),
    (Query.skip 0%nat 10 ;; Query.limit 0%nat 5 ;;
     Query.toQueryOptions (constants := Example.constants)
       (mapper := Example.queryMapper) 0%nat) Example.twoQueries =
    (Ok qo, h') /\
    qo_skipped qo = 10 /\ qo_limitation qo = 5.
Proof.
  destruct (skip_and_limit_reach_the_options
              (constants := Example.constants) (mapper := Example.queryMapper)
              Example.twoQueries 0%nat _ 10 5 ["id"]
              eq_refl eq_refl ltac:(lia) ltac:(lia))
    as (qo & Hrun & Hskip & Hlimit & _).
  exists qo. eexists. split; [exact Hrun|]. split; assumption.
Defined.

(** [select(['title', 'body'])] on a new query of the class [Post]:
    the two columns and no other. *)
Lemma selected_keys_replace_the_default_witness :
  exists (qo : QueryOptions) (h' : Heap),
    (let* q := Query.new (constants := Example.constants) Example.Post in
     Query.select q [Many ["title"; "body"]] ;;
     Query.toQueryOptions (constants := Example.constants)
       (mapper := Example.queryMapper) q)
      (Query.loaded (constants := Example.constants)) = (Ok qo, h') /\
    qo_columns qo = [("Post.title", "title"); ("Post.body", "body")].
Proof.
  destruct (selected_keys_replace_the_default
              (constants := Example.constants) (mapper := Example.queryMapper)
              (Query.loaded (constants := Example.constants))
              Example.Post "title" ["body"] ["id"] eq_refl eq_refl)
    as (qo & h' & Hrun & Hcolumns & _).
  exists qo, h'. split; [exact Hrun|]. rewrite Hcolumns. reflexivity.
Defined.

(** A row with the columns [id] and [title]. *)
Lemma mapRows_of_plain_row_witness :
  KeyMap.toArray
    (MySQLDatabaseAdapter.mapRows (relops := Example.relationOps)
       [("id", VNum 7); ("title", VStr "a")]) =
  [("id", VNum 7); ("title", VStr "a")].
Proof.
  refine (mapRows_of_plain_row (relops := Example.relationOps)
            [("id", VNum 7); ("title", VStr "a")] _ _); reflexivity.
Defined.

(** The instance of a row with the columns [id] and [title]. *)
Lemma getClassFromKeys_of_mapped_row_witness :
  exists instance : ClassInstance,
    Query.getClassFromKeys (constants := Example.constants) 0%nat
      (MySQLDatabaseAdapter.mapRows (relops := Example.relationOps)
         [("id", VNum 7); ("title", VStr "a")]) Example.twoQueries =
      (Ok instance, Example.twoQueries) /\
    identifier instance = Some (VNum 7) /\
    KeyMap.get "id" (instance_keys instance) = None /\
    KeyMap.get "title" (instance_keys instance) = Some (VStr "a").
Proof.
  assert (Hne : "title" <> "id") by discriminate.
  destruct (getClassFromKeys_of_mapped_row
              (constants := Example.constants) (relops := Example.relationOps)
              Example.twoQueries 0%nat _
              [("id", VNum 7); ("title", VStr "a")] (VNum 7)
              eq_refl eq_refl eq_refl (or_introl eq_refl))
    as (instance & Hrun & _ & Hid & Hnone & Hkeys).
  exists instance. split; [exact Hrun|]. split; [exact Hid|].
  split; [exact Hnone|].
  exact (Hkeys "title" (VStr "a") (or_intror (or_introl eq_refl))
           eq_refl Hne).
Defined.

(** The find clause of a query of [Post] with two constraints. *)
Lemma find_clause_holds_every_constraint_witness :
  exists (s : string) (fragments : list string),
    MySQLDatabaseAdapter.findClause
      (client := Example.client) (compound := Example.compoundKey)
      (fun _ => Err TypeError) Example.twoConstraints = Ok s /\
    length fragments = 2%nat /\
    s = selectFrom (client := Example.client)
          (compound := Example.compoundKey) Example.twoConstraints +:+
        " WHERE " +:+ Str.join " AND " fragments.
Proof.
  eexists.
  destruct (find_clause_holds_every_constraint
              (client := Example.client) (compound := Example.compoundKey)
              (fun _ => Err TypeError) Example.twoConstraints _
              eq_refl eq_refl)
    as (fragments & Hall & Hs & _).
  exists fragments. split; [reflexivity|]. split; [|exact Hs].
  symmetry. exact (Forall2_length _ _ _ Hall).
Defined.

(** A query of [Post] constrained by [foundIn] on itself. *)
Lemma query_inside_itself_never_compiles_witness :
  Query.toQueryOptions (constants := Example.constants)
    (mapper := Example.queryMapper) 0%nat Example.insideItself =
  (Ok Example.insideItselfOptions, Example.insideItself) /\
  MySQLDatabaseAdapter.getFindClause
    (constants := Example.constants) (mapper := Example.queryMapper)
    (client := Example.client) (compound := Example.compoundKey)
    1000 Example.insideItself (findOptions Example.insideItselfOptions) =
  Err StackOverflow.
Proof.
  split; [reflexivity|].
  refine (query_inside_itself_never_compiles
            (constants := Example.constants) (mapper := Example.queryMapper)
            (client := Example.client) (compound := Example.compoundKey)
            Example.insideItself 0%nat Example.insideItselfOptions
            "id" FoundIn [] _ _ _ 1000%nat);
    reflexivity.
Defined.

(** [containedIn('title', [])] on a new query of the class [Post]. *)
Lemma empty_list_is_compiled_as_it_is_witness :
  fst (Query.containedIn (format := Example.format) 0%nat "title" []
         Example.twoQueries) = Ok 0%nat /\
  MySQLDatabaseAdapter.parseConstraint
    (client := Example.client) (compound := Example.compoundKey)
    (fun _ => Err TypeError) "title" ContainedIn (VArr []) =
  Ok "`title` IN ()".
Proof.
  destruct (empty_list_is_compiled_as_it_is
              (format := Example.format) (client := Example.client)
              (compound := Example.compoundKey)
              Example.twoQueries 0%nat _ "title" (fun _ => Err TypeError)
              eq_refl eq_refl)
    as (Hrun & Hin & _).
  split; [now rewrite Hrun|exact Hin].
Defined.

(** A property that holds one value, with the limit 0: the number 0
    is accepted, and read back as [undefined]. *)
Lemma min_set_then_get_witness :
  let descriptor :=
    Some {| MinModifier.descriptor_get := Some (fun this : value => this);
            MinModifier.descriptor_set :=
              Some (fun (val : value) (_ : value) => val) |} in
  MinModifier.set 0 descriptor (VNum 0) VUndefined = Some (VNum 0) /\
  MinModifier.get descriptor (VNum 0) = VUndefined.
Proof.
  cbv zeta. split; [reflexivity|].
  exact (proj2 (min_set_then_get value (fun this => this) (fun val _ => val)
                  (fun _ _ => eq_refl) 0 (VNum 0) VUndefined)).
Defined.

(** [greaterThan('title', 1)] on the first of two new queries of the
    class [Post]. *)
Lemma builder_stores_kinds_of_the_table_witness :
  let after :=
    Query.greaterThan (format := Example.format) 0%nat "title" (VNum 1)
      Example.twoQueries in
  compilable (client := Example.client) (fun _ => Err TypeError)
    (snd after) = true /\
  kindsIn (snd after) 0%nat = [GreaterThan].
Proof.
  cbv zeta.
  pose proof (builder_stores_kinds_of_the_table
                (format := Example.format) (client := Example.client)
                (fun _ => Err TypeError) Example.twoQueries 0%nat
                "title" "id" (One "title") (VNum 1) [] "" [] 1%nat []
                eq_refl) as Hall.
  split; [|reflexivity].
  exact (proj1 (Forall_inv (Forall_inv_tail (Forall_inv_tail Hall)))).
Defined.

(** [sortBy(['-title', '-body'])] and
    [sortByDescending(['title', 'body'])] on a new query of the class
    [Post]. *)
Lemma sortBy_hyphen_and_sortByDescending_witness :
  let pushed :=
    withArray Example.twoQueries 0%nat ["id"; "-title"; "-body"] in
  Query.sortBy 0%nat [Many ["-title"; "-body"]] Example.twoQueries =
    (Ok 0%nat, pushed) /\
  Query.sortByDescending 0%nat [Many ["title"; "body"]] Example.twoQueries =
    (Ok 0%nat, pushed).
Proof.
  exact (sortBy_hyphen_and_sortByDescending_push_the_same
           Example.twoQueries 0%nat _ ["title"; "body"] ["id"]
           eq_refl eq_refl eq_refl).
Defined.
